(** * Ranking adapter of the NCF inference endpoint (lab2/ncf/src/inference.py)

    The handler receives a batch request, reads one item identifier per
    instance from a one-hot vector, forwards the body to the model server,
    pairs identifiers with the returned scores, sorts the pairs by score in
    descending order and serialises them.

    The development has three layers:
    - [Py]: the part of the Python object model the handler touches
      (objects that come out of a JSON text, exceptions, subscripting,
      iteration, [list.index], number printing, [list.sort]);
    - [Json] and [Requests]: the two libraries the handler calls;
    - the four functions of inference.py, and then the statements about
      them.

    Conventions.  A Python [str] is kept as the byte string of its UTF-8
    encoding, a [bytes] value as a list of bytes.  A float is a binary64
    value of [SpecFloat].  Limits of the interpreter itself (recursion
    depth, memory, the digit limit of [int]) are not part of the model. *)

From Stdlib Require Import ZArith QArith List String Ascii Bool Lia.
From Stdlib Require Import Sorting.Permutation Sorting.Sorted.
From Stdlib Require Import Strings.Byte.
From Stdlib Require Import Floats.SpecFloat.
Import ListNotations.

Set Warnings "-register-all".
Local Open Scope string_scope.
Local Open Scope Z_scope.

(** ** Python objects, exceptions and results *)

Module Py.

(** The objects a JSON text decodes to.  A dict keeps its keys in insertion
    order and holds each key once. *)
Inductive obj : Type :=
| PNone
| PBool (b : bool)
| PInt (z : Z)
| PFloat (f : spec_float)
| PStr (s : string)
| PList (l : list obj)
| PDict (d : list (string * obj)).

Inductive exn : Type :=
| ValueError (msg : string)
| JSONDecodeError
| UnicodeDecodeError
| KeyError (key : obj)
| IndexError
| TypeError
| AttributeError
| RequestException.

(** What evaluating an expression gives: a value, a raised exception, or
    [Unmodelled] where the development does not fix what Python does (see
    [list_sort] and the fuel of [Json.loads]). *)
Inductive outcome (A : Type) : Type :=
| Ok (a : A)
| Raise (e : exn)
| Unmodelled.

Arguments Ok {A} a.
Arguments Raise {A} e.
Arguments Unmodelled {A}.

Definition bind {A B : Type} (m : outcome A) (k : A -> outcome B) : outcome B :=
  match m with
  | Ok a => k a
  | Raise e => Raise e
  | Unmodelled => Unmodelled
  end.

Fixpoint mapM {A B : Type} (f : A -> outcome B) (l : list A) : outcome (list B) :=
  match l with
  | [] => Ok []
  | x :: t =>
      bind (f x) (fun y => bind (mapM f t) (fun ys => Ok (y :: ys)))
  end.

(** *** Text *)

Definition bytes := list byte.

(** The double quote, and a way to write it inside literals: [q] turns
    every apostrophe of its argument into a double quote. *)
Definition dquote : ascii := ascii_of_nat 34.

Fixpoint q (s : string) : string :=
  match s with
  | EmptyString => EmptyString
  | String c t => String (if Ascii.eqb c "'" then dquote else c) (q t)
  end.

Definition code (c : ascii) : Z := Z.of_N (N_of_ascii c).
Definition chr (n : Z) : ascii := ascii_of_N (Z.to_N n).

Definition between (lo x hi : Z) : bool := (lo <=? x) && (x <=? hi).
Definition is_cont (x : Z) : bool := between 128 x 191.

(** [utf8_ok bs] holds when [bs] is well-formed UTF-8 as the strict
    codec of [bytes.decode] accepts it: shortest forms only, no
    surrogates, nothing above U+10FFFF. *)
Fixpoint utf8_ok (bs : list Z) : bool :=
  match bs with
  | [] => true
  | b0 :: r0 =>
      if b0 <? 128 then utf8_ok r0
      else
        match r0 with
        | [] => false
        | b1 :: r1 =>
            if between 194 b0 223 then is_cont b1 && utf8_ok r1
            else
              match r1 with
              | [] => false
              | b2 :: r2 =>
                  if between 224 b0 239 then
                    (if b0 =? 224 then between 160 b1 191
                     else if b0 =? 237 then between 128 b1 159
                     else is_cont b1)
                    && is_cont b2 && utf8_ok r2
                  else
                    match r2 with
                    | [] => false
                    | b3 :: r3 =>
                        between 240 b0 244
                        && (if b0 =? 240 then between 144 b1 191
                            else if b0 =? 244 then between 128 b1 143
                            else is_cont b1)
                        && is_cont b2 && is_cont b3 && utf8_ok r3
                    end
              end
        end
  end.

(** [bytes.decode('utf-8')] *)
Definition decode (b : bytes) : outcome string :=
  if utf8_ok (map (fun x => Z.of_N (Byte.to_N x)) b)
  then Ok (string_of_list_byte b)
  else Raise UnicodeDecodeError.

(** Number of bytes of the character that starts with byte [b0]. *)
Definition char_width (b0 : Z) : nat :=
  if b0 <? 192 then 1 else if b0 <? 224 then 2 else if b0 <? 240 then 3 else 4.

Fixpoint take_str (n : nat) (s : string) : string * string :=
  match n, s with
  | S n', String c t => let '(a, b) := take_str n' t in (String c a, b)
  | _, _ => (EmptyString, s)
  end.

(** The characters of a str, each as a str of length one. *)
Fixpoint chars_of (fuel : nat) (s : string) : list string :=
  match fuel, s with
  | S fuel', String c _ =>
      let '(ch, rest) := take_str (char_width (code c)) s in
      ch :: chars_of fuel' rest
  | _, _ => []
  end.

Definition chars (s : string) : list string := chars_of (String.length s) s.

(** [len(s)] is used by the handler only to tell the empty text from the
    others. *)
Definition len (s : string) : Z := Z.of_nat (List.length (chars s)).

(** Code point of a single character given as its bytes. *)
Definition ord (ch : string) : Z :=
  match map code (list_ascii_of_string ch) with
  | [a] => a
  | [a; b] => (a - 192) * 64 + (b - 128)
  | [a; b; c] => ((a - 224) * 64 + (b - 128)) * 64 + (c - 128)
  | [a; b; c; d] => (((a - 240) * 64 + (b - 128)) * 64 + (c - 128)) * 64 + (d - 128)
  | _ => 0
  end.

(** UTF-8 bytes of a code point (surrogates take the three-byte form). *)
Definition utf8 (cp : Z) : string :=
  let s := fun l => string_of_list_ascii (map chr l) in
  if cp <? 128 then s [cp]
  else if cp <? 2048 then s [192 + cp / 64; 128 + cp mod 64]
  else if cp <? 65536 then s [224 + cp / 4096; 128 + (cp / 64) mod 64; 128 + cp mod 64]
  else s [240 + cp / 262144; 128 + (cp / 4096) mod 64; 128 + (cp / 64) mod 64; 128 + cp mod 64].

(** [a == b] and [a or b] for an attribute [a] that is a str or None. *)
Definition str_eq (a : option string) (b : string) : bool :=
  match a with
  | Some t => String.eqb t b
  | None => false
  end.

Definition or_else (a : option string) (b : string) : string :=
  match a with
  | Some (String _ _ as t) => t
  | _ => b
  end.

(** [template.format(arg)] for a template whose only field is one [{}]:
    doubled braces stand for single ones. *)
Fixpoint format (template arg : string) : string :=
  match template with
  | String "{" (String "{" r) => String "{" (format r arg)
  | String "}" (String "}" r) => String "}" (format r arg)
  | String "{" (String "}" r) => arg ++ format r arg
  | String c r => String c (format r arg)
  | EmptyString => EmptyString
  end.

(** *** Numbers *)

(** [repr] of a non-negative int, most significant digit first. *)
Fixpoint digits_of (fuel : nat) (n : Z) (acc : string) : string :=
  match fuel with
  | O => acc
  | S fuel' =>
      let c := chr (48 + n mod 10) in
      if n <? 10 then String c acc else digits_of fuel' (n / 10) (String c acc)
  end.

Definition repr_nat (n : Z) : string :=
  digits_of (S (Z.to_nat (Z.log2 n))) n EmptyString.

(** [int.__repr__] *)
Definition repr_int (z : Z) : string :=
  if z <? 0 then String "-" (repr_nat (- z)) else repr_nat z.

Definition prec : Z := 53.
Definition emax : Z := 1024.

(** [float(text)] for the literal [d * 10^k] with [d >= 0]: the binary64
    value nearest to it, ties to even; [neg] is the sign of the literal. *)
Definition float_of_decimal (neg : bool) (d k : Z) : spec_float :=
  match d with
  | Zpos _ =>
      if 0 <=? k then binary_round prec emax neg (Z.to_pos (d * 10 ^ k)) 0
      else
        let '(m, e, l) := SFdiv_core_binary prec emax d 0 (10 ^ (- k)) 0 in
        binary_round_aux prec emax neg m e l
  | _ => S754_zero neg
  end.

(** A positive finite float [m * 2^e] as a fraction of integers. *)
Definition frac_of (m : positive) (e : Z) : Z * Z :=
  if 0 <=? e then (Zpos m * 2 ^ e, 1) else (Zpos m, 2 ^ (- e)).

(** Position of the decimal point: the least [d], from the start value
    upwards, with [num / den < 10^d]. *)
Fixpoint find_decpt (fuel : nat) (d num den : Z) : Z :=
  match fuel with
  | O => d
  | S fuel' =>
      let below :=
        if 0 <=? d then num <? den * 10 ^ d else num * 10 ^ (- d) <? den in
      if below then d else find_decpt fuel' (d + 1) num den
  end.

Definition same_float (x y : spec_float) : bool :=
  match x, y with
  | S754_finite s m e, S754_finite s' m' e' =>
      Bool.eqb s s' && Pos.eqb m m' && (e =? e')
  | _, _ => false
  end.

(** The shortest decimal [c * 10^k] that reads back as [x], looked for
    with 1, 2, ... up to 17 digits; of two candidates of one length the
    nearer to [x] is taken.  This is what [float.__repr__] prints. *)
Fixpoint shortest (fuel : nat) (n : Z) (x : spec_float) (num den decpt : Z)
  : Z * Z :=
  match fuel with
  | O => (0, decpt)
  | S fuel' =>
      let k := decpt - n in
      let '(a, b) :=
        if 0 <=? k then (num, den * 10 ^ k) else (num * 10 ^ (- k), den) in
      let lo := a / b in
      let hi := lo + 1 in
      let oklo := same_float (float_of_decimal false lo k) x in
      let okhi := same_float (float_of_decimal false hi k) x in
      let nearer_lo :=
        match 2 * (a mod b) ?= b with
        | Lt => true
        | Gt => false
        | Eq => Z.even lo
        end in
      if oklo && okhi then (if nearer_lo then lo else hi, k)
      else if oklo then (lo, k)
      else if okhi then (hi, k)
      else shortest fuel' (n + 1) x num den decpt
  end.

Fixpoint strip_zeros (fuel : nat) (c k : Z) : Z * Z :=
  match fuel with
  | O => (c, k)
  | S fuel' =>
      if (c mod 10 =? 0) && (0 <? c) then strip_zeros fuel' (c / 10) (k + 1)
      else (c, k)
  end.

Fixpoint zeros (n : nat) : string :=
  match n with
  | O => EmptyString
  | S n' => String "0" (zeros n')
  end.

Definition repr_exponent (e : Z) : string :=
  let a := repr_nat (Z.abs e) in
  String (if e <? 0 then "-"%char else "+"%char)
         (if Z.abs e <? 10 then String "0" a else a).

(** Layout of [repr]: exponent form when the decimal point lies outside
    [-4 < decpt <= 16], plain form with at least one fractional digit
    otherwise. *)
Definition format_r (digits : string) (decpt : Z) : string :=
  let nd := Z.of_nat (String.length digits) in
  if (decpt <=? -4) || (16 <? decpt) then
    match digits with
    | EmptyString => EmptyString
    | String c EmptyString => String c ("e" ++ repr_exponent (decpt - 1))
    | String c rest => String c ("." ++ rest ++ "e" ++ repr_exponent (decpt - 1))
    end
  else if decpt <=? 0 then "0." ++ zeros (Z.to_nat (- decpt)) ++ digits
  else if nd <=? decpt then digits ++ zeros (Z.to_nat (decpt - nd)) ++ ".0"
  else
    let '(int_part, frac_part) := take_str (Z.to_nat decpt) digits in
    int_part ++ "." ++ frac_part.

(** [float.__repr__] *)
Definition repr_float (x : spec_float) : string :=
  match x with
  | S754_nan => "nan"
  | S754_infinity s => if s then "-inf" else "inf"
  | S754_zero s => if s then "-0.0" else "0.0"
  | S754_finite s m e =>
      let '(num, den) := frac_of m e in
      let decpt := find_decpt 700 (-330) num den in
      let '(c0, k0) := shortest 17 1 (S754_finite false m e) num den decpt in
      let '(c, k) := strip_zeros 20 c0 k0 in
      let digits := repr_nat c in
      let body := format_r digits (k + Z.of_nat (String.length digits)) in
      if s then String "-" body else body
  end.

(** The value of a number on the extended rational line.  A bool is an
    int (True is 1); NaN and the objects that are no numbers have none. *)
Inductive xnum : Type :=
| XNegInf
| XFin (v : Q)
| XPosInf.

Definition Q_of_float (s : bool) (m : positive) (e : Z) : Q :=
  let v := if 0 <=? e then inject_Z (Zpos m * 2 ^ e)
           else Qmake (Zpos m) (Z.to_pos (2 ^ (- e))) in
  if s then Qopp v else v.

Definition number (o : obj) : option xnum :=
  match o with
  | PBool b => Some (XFin (inject_Z (if b then 1 else 0)))
  | PInt z => Some (XFin (inject_Z z))
  | PFloat (S754_zero _) => Some (XFin (inject_Z 0))
  | PFloat (S754_finite s m e) => Some (XFin (Q_of_float s m e))
  | PFloat (S754_infinity s) => Some (if s then XNegInf else XPosInf)
  | _ => None
  end.

Definition xlt (a b : xnum) : bool :=
  match a, b with
  | XNegInf, XNegInf => false
  | XNegInf, _ => true
  | XFin p, XFin r => match Qcompare p r with Lt => true | _ => false end
  | XFin _, XPosInf => true
  | _, _ => false
  end.

Definition xeq (a b : xnum) : bool := negb (xlt a b) && negb (xlt b a).

(** [o == 1] *)
Definition eq_one (o : obj) : bool :=
  match number o with
  | Some v => xeq v (XFin (inject_Z 1))
  | None => false
  end.

(** *** Subscripting, iteration, search *)

Fixpoint lookup (k : string) (d : list (string * obj)) : option obj :=
  match d with
  | [] => None
  | (k', v) :: t => if String.eqb k k' then Some v else lookup k t
  end.

(** [d[k] = v]: a key already present keeps its place. *)
Fixpoint dict_set (k : string) (v : obj) (d : list (string * obj))
  : list (string * obj) :=
  match d with
  | [] => [(k, v)]
  | (k', v') :: t =>
      if String.eqb k k' then (k, v) :: t else (k', v') :: dict_set k v t
  end.

(** [o[k]] for a str [k] *)
Definition getitem (o : obj) (k : string) : outcome obj :=
  match o with
  | PDict d =>
      match lookup k d with
      | Some v => Ok v
      | None => Raise (KeyError (PStr k))
      end
  | _ => Raise TypeError
  end.

(** [o[0]] *)
Definition getitem0 (o : obj) : outcome obj :=
  match o with
  | PList (x :: _) => Ok x
  | PList [] => Raise IndexError
  | PStr s =>
      match chars s with
      | c :: _ => Ok (PStr c)
      | [] => Raise IndexError
      end
  | PDict _ => Raise (KeyError (PInt 0))
  | _ => Raise TypeError
  end.

(** The elements [for x in o] and [zip(_, o)] draw from [o]. *)
Definition iter (o : obj) : outcome (list obj) :=
  match o with
  | PList l => Ok l
  | PStr s => Ok (map PStr (chars s))
  | PDict d => Ok (map (fun kv => PStr (fst kv)) d)
  | _ => Raise TypeError
  end.

Fixpoint find_one (l : list obj) (i : Z) : option Z :=
  match l with
  | [] => None
  | x :: t => if eq_one x then Some i else find_one t (i + 1)
  end.

(** [o.index(1)] *)
Definition index_one (o : obj) : outcome Z :=
  match o with
  | PList l =>
      match find_one l 0 with
      | Some i => Ok i
      | None => Raise (ValueError "1 is not in list")
      end
  | PStr _ => Raise TypeError
  | _ => Raise AttributeError
  end.

(** *** [list.sort(key=..., reverse=...)]

    The sort is stable and compares keys with [<] only.  When every key is
    a number other than NaN, [<] is a strict weak order on the keys and the
    result is fixed by that contract alone: the one stable arrangement,
    which insertion from the right computes.  With [reverse] the elements
    are arranged as if each comparison were reversed, and equal keys still
    keep their input order.  A list of fewer than two elements is left as
    it is, whatever its key.  For other keys (NaN, str, list, objects
    without an order) the arrangement - or the TypeError - depends on
    which comparisons the implementation makes: [Unmodelled]. *)

Section Sort.
Context {A : Type}.
Variable reverse : bool.

(** [after x y]: [x], which stands before [y] in the input, must stand
    after it in the result. *)
Definition after (x y : xnum * A) : bool :=
  if reverse then xlt (fst x) (fst y) else xlt (fst y) (fst x).

Fixpoint insert (x : xnum * A) (l : list (xnum * A)) : list (xnum * A) :=
  match l with
  | [] => [x]
  | y :: t => if after x y then y :: insert x t else x :: y :: t
  end.

Fixpoint stable_sort (l : list (xnum * A)) : list (xnum * A) :=
  match l with
  | [] => []
  | x :: t => insert x (stable_sort t)
  end.
End Sort.

(** Each element with the value of its key, when all keys are numbers. *)
Fixpoint decorate {A : Type} (keys : list obj) (l : list A)
  : option (list (xnum * A)) :=
  match keys, l with
  | k :: keys', x :: l' =>
      match number k, decorate keys' l' with
      | Some v, Some r => Some ((v, x) :: r)
      | _, _ => None
      end
  | _, _ => Some []
  end.

Definition list_sort (key : obj -> outcome obj) (reverse : bool) (l : list obj)
  : outcome (list obj) :=
  bind (mapM key l) (fun keys =>
    match l with
    | [] | [_] => Ok l
    | _ =>
        match decorate keys l with
        | Some kl => Ok (map snd (stable_sort reverse kl))
        | None => Unmodelled
        end
    end).

End Py.

Import Py.

Declare Scope py_scope.
Delimit Scope py_scope with py.
Notation "x <- m ;; k" := (bind m (fun x => k))
  (at level 61, m at next level, right associativity) : py_scope.
Notation "' p <- m ;; k" := (bind m (fun p => k))
  (at level 61, p pattern, m at next level, right associativity) : py_scope.

(** ** The [json] module *)

Module Json.

Definition is_ws (c : ascii) : bool :=
  let n := code c in (n =? 32) || (n =? 9) || (n =? 10) || (n =? 13).

Fixpoint skip_ws (s : string) : string :=
  match s with
  | String c t => if is_ws c then skip_ws t else s
  | EmptyString => s
  end.

Definition is_digit (c : ascii) : bool := between 48 (code c) 57.

Fixpoint span_digits (s : string) : string * string :=
  match s with
  | String c t =>
      if is_digit c then let '(a, b) := span_digits t in (String c a, b)
      else (EmptyString, s)
  | EmptyString => (EmptyString, s)
  end.

Fixpoint int_of_digits (s : string) (acc : Z) : Z :=
  match s with
  | String c t => int_of_digits t (10 * acc + (code c - 48))
  | EmptyString => acc
  end.

Fixpoint drop_prefix (p s : string) : option string :=
  match p, s with
  | EmptyString, _ => Some s
  | String a p', String b s' => if Ascii.eqb a b then drop_prefix p' s' else None
  | _, _ => None
  end.

(** The exponent part, when there is one: e or E, an optional sign, at
    least one digit. *)
Definition scan_exponent (s : string) : option Z * string :=
  match s with
  | String c t =>
      if Ascii.eqb c "e" || Ascii.eqb c "E" then
        let '(neg, t1) :=
          match t with
          | String "-" t' => (true, t')
          | String "+" t' => (false, t')
          | _ => (false, t)
          end in
        match span_digits t1 with
        | (EmptyString, _) => (None, s)
        | (ds, r) =>
            (Some (if neg then - int_of_digits ds 0 else int_of_digits ds 0), r)
        end
      else (None, s)
  | EmptyString => (None, s)
  end.

(** A number: an optional minus sign, an integer part (a lone 0, or
    digits that do not start with 0), an optional fraction (a dot and at
    least one digit) and an optional exponent.  It is an int when it has
    neither fraction nor exponent, a float otherwise. *)
Definition scan_number (s : string) : option (obj * string) :=
  let '(neg, s1) :=
    match s with
    | String "-" t => (true, t)
    | _ => (false, s)
    end in
  match span_digits s1 with
  | (EmptyString, _) => None
  | (String d0 dt as ds, r) =>
      let '(ip, s2) :=
        if code d0 =? 48 then (String d0 EmptyString, dt ++ r) else (ds, r) in
      let '(fp, s3) :=
        match s2 with
        | String "." t =>
            match span_digits t with
            | (EmptyString, _) => (EmptyString, s2)
            | (f, r') => (f, r')
            end
        | _ => (EmptyString, s2)
        end in
      let '(ex, s4) := scan_exponent s3 in
      match fp, ex with
      | EmptyString, None =>
          let n := int_of_digits ip 0 in
          Some (PInt (if neg then - n else n), s4)
      | _, _ =>
          let e := match ex with Some e => e | None => 0 end in
          Some (PFloat (float_of_decimal neg (int_of_digits (ip ++ fp) 0)
                          (e - Z.of_nat (String.length fp))), s4)
      end
  end.

Definition hex_val (c : ascii) : option Z :=
  let n := code c in
  if between 48 n 57 then Some (n - 48)
  else if between 97 n 102 then Some (n - 87)
  else if between 65 n 70 then Some (n - 55)
  else None.

Definition hex4 (s : string) : option (Z * string) :=
  match s with
  | String a (String b (String c (String d t))) =>
      match hex_val a, hex_val b, hex_val c, hex_val d with
      | Some x, Some y, Some z, Some w =>
          Some (((x * 16 + y) * 16 + z) * 16 + w, t)
      | _, _, _, _ => None
      end
  | _ => None
  end.

Definition unescape (c : ascii) : option ascii :=
  let n := code c in
  if (n =? 34) || (n =? 92) || (n =? 47) then Some c
  else if Ascii.eqb c "b" then Some (chr 8)
  else if Ascii.eqb c "f" then Some (chr 12)
  else if Ascii.eqb c "n" then Some (chr 10)
  else if Ascii.eqb c "r" then Some (chr 13)
  else if Ascii.eqb c "t" then Some (chr 9)
  else None.

Definition backslash : ascii := chr 92.

(** The rest of a string literal after its opening quote: the text it
    denotes and what follows the closing quote.  Control characters are
    refused; an escaped high surrogate joins a low one that follows. *)
Fixpoint scanstring (fuel : nat) (s acc : string) : outcome (string * string) :=
  match fuel with
  | O => Unmodelled
  | S fuel' =>
      match s with
      | EmptyString => Raise JSONDecodeError
      | String c t =>
          if Ascii.eqb c dquote then Ok (acc, t)
          else if code c <? 32 then Raise JSONDecodeError
          else if Ascii.eqb c backslash then
            match t with
            | EmptyString => Raise JSONDecodeError
            | String e t' =>
                if Ascii.eqb e "u" then
                  match hex4 t' with
                  | None => Raise JSONDecodeError
                  | Some (u, r) =>
                      let lone := scanstring fuel' r (acc ++ utf8 u) in
                      if between 55296 u 56319 then
                        match r with
                        | String b1 (String b2 r') =>
                            if Ascii.eqb b1 backslash && Ascii.eqb b2 "u" then
                              match hex4 r' with
                              | None => Raise JSONDecodeError
                              | Some (u2, r2) =>
                                  if between 56320 u2 57343 then
                                    scanstring fuel' r2
                                      (acc ++ utf8 (65536 + (u - 55296) * 1024
                                                    + (u2 - 56320)))
                                  else lone
                              end
                            else lone
                        | _ => lone
                        end
                      else lone
                  end
                else
                  match unescape e with
                  | Some ch => scanstring fuel' t' (acc ++ String ch EmptyString)
                  | None => Raise JSONDecodeError
                  end
            end
          else scanstring fuel' t (acc ++ String c EmptyString)
      end
  end.

Definition scan_literal (s : string) : outcome (obj * string) :=
  let try := fun (p : string) (v : obj) (k : outcome (obj * string)) =>
    match drop_prefix p s with
    | Some r => Ok (v, r)
    | None => k
    end in
  try "null" PNone
  (try "true" (PBool true)
  (try "false" (PBool false)
  (try "NaN" (PFloat S754_nan)
  (try "Infinity" (PFloat (S754_infinity false))
  (try "-Infinity" (PFloat (S754_infinity true))
  (match scan_number s with
   | Some r => Ok r
   | None => Raise JSONDecodeError
   end)))))).

Local Open Scope py_scope.

(** The scanner: [scan_once] reads one value at the head of the text and
    returns it with the rest; [scan_array] and [scan_object] start after
    the opening bracket and the white space behind it.  Every call is
    given one unit of fuel less than its caller. *)
Fixpoint scan_once (fuel : nat) (s : string) : outcome (obj * string) :=
  match fuel with
  | O => Unmodelled
  | S fuel' =>
      match s with
      | EmptyString => Raise JSONDecodeError
      | String c t =>
          if Ascii.eqb c dquote then
            '(str, r) <- scanstring (S (String.length t)) t EmptyString ;;
            Ok (PStr str, r)
          else if Ascii.eqb c "{" then scan_object fuel' (skip_ws t)
          else if Ascii.eqb c "[" then scan_array fuel' (skip_ws t)
          else scan_literal s
      end
  end
with scan_array (fuel : nat) (s : string) : outcome (obj * string) :=
  match fuel with
  | O => Unmodelled
  | S fuel' =>
      match s with
      | String "]" t => Ok (PList [], t)
      | _ => scan_items fuel' s []
      end
  end
with scan_items (fuel : nat) (s : string) (acc : list obj)
  : outcome (obj * string) :=
  match fuel with
  | O => Unmodelled
  | S fuel' =>
      '(v, r) <- scan_once fuel' s ;;
      match skip_ws r with
      | String "]" t => Ok (PList (acc ++ [v]), t)
      | String "," t => scan_items fuel' (skip_ws t) (acc ++ [v])
      | _ => Raise JSONDecodeError
      end
  end
with scan_object (fuel : nat) (s : string) : outcome (obj * string) :=
  match fuel with
  | O => Unmodelled
  | S fuel' =>
      match s with
      | String "}" t => Ok (PDict [], t)
      | _ => scan_members fuel' s []
      end
  end
with scan_members (fuel : nat) (s : string) (acc : list (string * obj))
  : outcome (obj * string) :=
  match fuel with
  | O => Unmodelled
  | S fuel' =>
      match s with
      | EmptyString => Raise JSONDecodeError
      | String c t =>
          if Ascii.eqb c dquote then
            '(k, r) <- scanstring (S (String.length t)) t EmptyString ;;
            match skip_ws r with
            | String ":" t1 =>
                '(v, r1) <- scan_once fuel' (skip_ws t1) ;;
                match skip_ws r1 with
                | String "}" t2 => Ok (PDict (dict_set k v acc), t2)
                | String "," t2 =>
                    scan_members fuel' (skip_ws t2) (dict_set k v acc)
                | _ => Raise JSONDecodeError
                end
            | _ => Raise JSONDecodeError
            end
          else Raise JSONDecodeError
      end
  end.

(** [json.loads]: one value, white space around it, nothing else.  Three
    units of fuel for each character are more than the scanner can use. *)
Definition loads (s : string) : outcome obj :=
  '(v, r) <- scan_once (3 * String.length s + 3) (skip_ws s) ;;
  match skip_ws r with
  | EmptyString => Ok v
  | _ => Raise JSONDecodeError
  end.

(** [json.dumps] with its default settings: [", "] and [": "] as
    separators, non-ASCII characters escaped, NaN and the infinities
    written as [NaN], [Infinity] and [-Infinity]. *)

Definition hex_digit (n : Z) : ascii := chr (if n <? 10 then 48 + n else 87 + n).

Definition u_escape (cp : Z) : string :=
  String backslash (String "u"
    (string_of_list_ascii
       (map hex_digit [cp / 4096; (cp / 256) mod 16; (cp / 16) mod 16; cp mod 16]))).

Definition escape_char (ch : string) : string :=
  let cp := ord ch in
  let esc := fun c : ascii => String backslash (String c EmptyString) in
  if cp =? 34 then esc dquote
  else if cp =? 92 then esc backslash
  else if cp =? 10 then esc "n"%char
  else if cp =? 13 then esc "r"%char
  else if cp =? 9 then esc "t"%char
  else if cp =? 8 then esc "b"%char
  else if cp =? 12 then esc "f"%char
  else if between 32 cp 126 then ch
  else if cp <? 65536 then u_escape cp
  else u_escape (55296 + (cp - 65536) / 1024)
       ++ u_escape (56320 + (cp - 65536) mod 1024).

Definition encode_str (s : string) : string :=
  String dquote (String.concat EmptyString (map escape_char (chars s)))
  ++ String dquote EmptyString.

Definition floatstr (f : spec_float) : string :=
  match f with
  | S754_nan => "NaN"
  | S754_infinity false => "Infinity"
  | S754_infinity true => "-Infinity"
  | _ => repr_float f
  end.

Fixpoint dumps (o : obj) : string :=
  match o with
  | PNone => "null"
  | PBool true => "true"
  | PBool false => "false"
  | PInt z => repr_int z
  | PFloat f => floatstr f
  | PStr s => encode_str s
  | PList l => "[" ++ String.concat ", " (map dumps l) ++ "]"
  | PDict d =>
      "{" ++ String.concat ", "
               (map (fun kv => encode_str (fst kv) ++ ": " ++ dumps (snd kv)) d)
      ++ "}"
  end.

End Json.

(** ** The [requests] module and the world outside *)

Module Requests.

Record Response : Type := {
  status_code : Z;
  content : bytes
}.

(** The world as the handler sees it: what the server behind a URI
    answers to a POST of a body (a response, or an exception of the
    transport), and the POSTs made so far, oldest first. *)
Record World : Type := {
  server : string -> string -> outcome Response;
  posted : list (string * string)
}.

(** A computation that may POST. *)
Definition Run (A : Type) : Type := World -> outcome A * World.

Definition ret {A : Type} (a : A) : Run A := fun w => (Ok a, w).

Definition lift {A : Type} (m : outcome A) : Run A := fun w => (m, w).

Definition seq {A B : Type} (m : Run A) (k : A -> Run B) : Run B :=
  fun w =>
    match m w with
    | (Ok a, w') => k a w'
    | (Raise e, w') => (Raise e, w')
    | (Unmodelled, w') => (Unmodelled, w')
    end.

(** [requests.post(uri, data=body)] *)
Definition post (uri body : string) : Run Response :=
  fun w =>
    (server w uri body,
     {| server := server w; posted := posted w ++ [(uri, body)] |}).

End Requests.

Import Requests.

Declare Scope run_scope.
Delimit Scope run_scope with run.
Notation "x <- m ;; k" := (seq m (fun x => k))
  (at level 61, m at next level, right associativity) : run_scope.
Notation "' p <- m ;; k" := (seq m (fun p => k))
  (at level 61, p pattern, m at next level, right associativity) : run_scope.

(** ** inference.py *)

(** The request context handed over by the serving container; the three
    attributes the handler reads. *)
Record Context : Type := {
  request_content_type : option string;
  accept_header : option string;
  rest_uri : string
}.

Definition order_item_predictions (e : obj) : outcome obj :=
  getitem e "prediction".

Definition _process_input (data : bytes) (context : Context) : outcome string :=
  if str_eq (request_content_type context) "application/json" then
    (* pass through json (assumes it's correctly formed) *)
    (d <- decode data ;;
     Ok (if 0 <? len d then d else EmptyString))%py
  else
    Raise (ValueError
             (format (q "{{'error': 'unsupported content type {}'}}")
                     (or_else (request_content_type context) "unknown"))).

Definition _process_output (data : Response) (context : Context)
  : outcome (bytes * option string) :=
  if negb (status_code data =? 200) then
    (text <- decode (content data) ;; Raise (ValueError text))%py
  else
    let response_content_type := accept_header context in
    let prediction := content data in
    Ok (prediction, response_content_type).

(** The loop over the instances, lines 19 to 22. *)
Fixpoint item_ids_loop (instances : list obj) (item_ids : list Z)
  : outcome (list Z) :=
  match instances with
  | [] => Ok item_ids
  | instance :: rest =>
      (one_hot_encoded_item_id <- getitem instance "input_2" ;;
       item_id <- index_one one_hot_encoded_item_id ;;
       item_ids_loop rest (item_ids ++ [item_id]))%py
  end.

(** One element of the list comprehension of line 31. *)
Definition item_prediction_score (ip : Z * obj) : outcome obj :=
  let '(i, p) := ip in
  (p0 <- getitem0 p ;;
   Ok (PDict [("item_id", PInt i); ("prediction", p0)]))%py.

(** The handler.  Each line of the source is one step; [iter] stands where
    the source starts to iterate ([for instance in instances] and
    [zip(item_ids, prediction_scores)]), and [combine] is [zip] on the two
    sequences: it pairs by position and stops at the end of the shorter. *)
Definition handler (data : bytes) (context : Context)
  : Run (string * option string) :=
  (processed_input <- lift (_process_input data context) ;;
   processed_input_json <- lift (Json.loads processed_input) ;;
   instances <- lift (getitem processed_input_json "instances") ;;
   item_ids <- ret [] ;;
   instances <- lift (iter instances) ;;
   item_ids <- lift (item_ids_loop instances item_ids) ;;

   response <- post (rest_uri context) processed_input ;;
   '(prediction, response_content_type) <-
     lift (_process_output response context) ;;

   pred_str <- lift (decode prediction) ;;
   pred_json <- lift (Json.loads pred_str) ;;
   prediction_scores <- lift (getitem pred_json "predictions") ;;

   prediction_scores <- lift (iter prediction_scores) ;;
   item_prediction_scores <-
     lift (mapM item_prediction_score (combine item_ids prediction_scores)) ;;
   item_prediction_scores <-
     lift (list_sort order_item_predictions true item_prediction_scores) ;;
   let item_prediction := [] in
   let item_prediction :=
     dict_set "predictions" (PList item_prediction_scores) item_prediction in
   let item_prediction_str := Json.dumps (PDict item_prediction) in
   ret (item_prediction_str, response_content_type))%run.

(** ** Vocabulary of the statements *)

(** The instances the loop of the handler runs over, and the predictions
    [zip] draws from: the same steps as in [handler], under one name. *)
Definition instances_of (body : string) : outcome (list obj) :=
  (j <- Json.loads body ;; i <- getitem j "instances" ;; iter i)%py.

Definition predictions_of (reply : bytes) : outcome (list obj) :=
  (t <- decode reply ;; j <- Json.loads t ;;
   p <- getitem j "predictions" ;; iter p)%py.

(** The body of the loop, for one instance. *)
Definition instance_item_id (instance : obj) : outcome Z :=
  (one_hot <- getitem instance "input_2" ;; index_one one_hot)%py.

(** The world after one POST of [body] to [uri]. *)
Definition after_post (w : World) (uri body : string) : World :=
  {| server := server w; posted := posted w ++ [(uri, body)] |}.

(** A ranked entry as the handler builds it, and the text returned for a
    list of (item id, score) pairs. *)
Definition entry (ip : Z * obj) : obj :=
  PDict [("item_id", PInt (fst ip)); ("prediction", snd ip)].

Definition response_text (ranked : list (Z * obj)) : string :=
  Json.dumps (PDict [("predictions", PList (map entry ranked))]).

Definition xle (a b : xnum) : bool :=
  match a, b with
  | XNegInf, _ => true
  | _, XPosInf => true
  | XFin p, XFin r => Qle_bool p r
  | _, _ => false
  end.

(** [score_le a b]: both scores are numbers and [a <= b]. *)
Definition score_le (a b : obj) : Prop :=
  exists x y, number a = Some x /\ number b = Some y /\ xle x y = true.

(** No score is followed, at any distance, by a greater one. *)
Definition non_increasing (scores : list obj) : Prop :=
  forall i j a b, (i < j)%nat ->
    nth_error scores i = Some a -> nth_error scores j = Some b -> score_le b a.

(** The pairs whose score equals [v]. *)
Definition same_score (v : xnum) (ip : Z * obj) : bool :=
  match number (snd ip) with
  | Some x => xeq x v
  | None => false
  end.

(** [i] is the zero-based position of the first element of [v] equal to 1. *)
Definition first_one (v : list obj) (i : Z) : Prop :=
  0 <= i /\
  (exists x, nth_error v (Z.to_nat i) = Some x /\ eq_one x = true) /\
  (forall j y, (j < Z.to_nat i)%nat -> nth_error v j = Some y -> eq_one y = false).

(** Order and classes of the decorated elements the sort works on. *)
Definition desc {A : Type} (x y : xnum * A) : Prop := xle (fst y) (fst x) = true.

Definition key_is {A : Type} (v : xnum) (x : xnum * A) : bool := xeq (fst x) v.

Definition tag {A B : Type} (f : A -> B) (e : xnum * A) : xnum * B :=
  (fst e, f (snd e)).

(** *** Requests and replies used as examples *)

Definition sample_context : Context :=
  {| request_content_type := Some "application/json";
     accept_header := Some "application/json";
     rest_uri := "http://localhost:8501/v1/models/ncf:predict" |}.

(** A server that answers every POST with the same status and body. *)
Definition answering (status : Z) (reply : string) : World :=
  {| server := fun _ _ =>
       Ok {| status_code := status; content := list_byte_of_string reply |};
     posted := [] |}.

Definition sample_body : string :=
  q "{'instances': [{'input_2':[0,1,0]}, {'input_2':[1,0,0]}]}".

Definition sample_instances : list obj :=
  [PDict [("input_2", PList [PInt 0; PInt 1; PInt 0])];
   PDict [("input_2", PList [PInt 1; PInt 0; PInt 0])]].

Definition sample_reply : string := q "{'predictions': [[0.2],[0.9]]}".

Definition sample_predictions : list obj :=
  [PList [PFloat (float_of_decimal false 2 (-1))];
   PList [PFloat (float_of_decimal false 9 (-1))]].

Definition sample_response : Response :=
  {| status_code := 200; content := list_byte_of_string sample_reply |}.

Definition sample_text : string :=
  q "{'predictions': [{'item_id': 0, 'prediction': 0.9}, {'item_id': 1, 'prediction': 0.2}]}".

Definition compact_text : string :=
  q "{'predictions':[{'item_id':0,'prediction':0.9},{'item_id':1,'prediction':0.2}]}".

Definition plain_text_context : Context :=
  {| request_content_type := Some "text/plain";
     accept_header := None;
     rest_uri := "http://localhost:8501/v1/models/ncf:predict" |}.

Definition overloaded : Response :=
  {| status_code := 500; content := list_byte_of_string "server overloaded" |}.

Definition body_without_one : string :=
  q "{'instances': [{'input_2':[0,1,0]}, {'input_2':[0,0,0]}]}".

Definition instances_without_one : list obj :=
  [PDict [("input_2", PList [PInt 0; PInt 1; PInt 0])];
   PDict [("input_2", PList [PInt 0; PInt 0; PInt 0])]].

Definition two_ones : list obj :=
  [PInt 0; PInt 1; PFloat (float_of_decimal false 1 0); PInt 1].

Definition empty_batch : string := q "{'instances': []}".

Definition tied_body : string :=
  q "{'instances': [{'input_2':[0,1,0]}, {'input_2':[1,0,0]}, {'input_2':[0,0,1]}]}".

Definition tied_instances : list obj :=
  [PDict [("input_2", PList [PInt 0; PInt 1; PInt 0])];
   PDict [("input_2", PList [PInt 1; PInt 0; PInt 0])];
   PDict [("input_2", PList [PInt 0; PInt 0; PInt 1])]].

Definition tied_reply : string := q "{'predictions': [[5], [5.0], [9]]}".

Definition tied_scores : list obj :=
  [PInt 5; PFloat (float_of_decimal false 5 0); PInt 9].

Definition tied_text : string :=
  q "{'predictions': [{'item_id': 2, 'prediction': 9}, {'item_id': 1, 'prediction': 5}, {'item_id': 0, 'prediction': 5.0}]}".

Definition long_reply : string := q "{'predictions': [[0.2],[0.9],[0.5]]}".

Definition long_predictions : list obj :=
  [PList [PFloat (float_of_decimal false 2 (-1))];
   PList [PFloat (float_of_decimal false 9 (-1))];
   PList [PFloat (float_of_decimal false 5 (-1))]].

(** *** Further requests, replies and worlds used as examples *)

Definition undecodable : bytes := [xff].

(** A server that cannot be reached, and one that answers with given
    bytes. *)
Definition refusing : World :=
  {| server := fun _ _ => Raise RequestException; posted := [] |}.

Definition answering_bytes (status : Z) (reply : bytes) : World :=
  {| server := fun _ _ => Ok {| status_code := status; content := reply |};
     posted := [] |}.

Definition body_missing_field : string :=
  q "{'instances': [{'input_2':[1]}, {'input_1':[1]}, 5]}".

Definition body_without_instances : string := q "{'inputs': []}".

Definition reply_without_predictions : string := q "{'outputs': [[0.2],[0.9]]}".

Definition reply_with_empty_entry : string := q "{'predictions': [[0.2],[]]}".

Definition reply_with_tails : string :=
  q "{'predictions': [[0.2, 7, 'x'], [0.9, null], []]}".

Definition single_body : string := q "{'instances': [{'input_2':[0,1,0]}]}".

Definition reply_with_text_score : string := q "{'predictions': [['n/a']]}".

(** Pairs with the value of their score, for the comparison of two
    arrangements of the same pairs. *)
Definition score_value (ip : Z * obj) : xnum :=
  match number (snd ip) with
  | Some v => v
  | None => XNegInf
  end.

(* lemmas *)

Definition with_value (ip : Z * obj) : xnum * (Z * obj) := (score_value ip, ip).

Definition numeric (ip : Z * obj) : Prop := number (snd ip) <> None.

Definition ordered_body : string :=
  q "{'instances': [{'input_2':[1,0,0]}, {'input_2':[0,1,0]}]}".

Definition ordered_instances : list obj :=
  [PDict [("input_2", PList [PInt 1; PInt 0; PInt 0])];
   PDict [("input_2", PList [PInt 0; PInt 1; PInt 0])]].

Definition ordered_reply : string := q "{'predictions': [[9],[2]]}".

Definition ordered_text : string :=
  q "{'predictions': [{'item_id': 0, 'prediction': 9}, {'item_id': 1, 'prediction': 2}]}".

(** ** Facts about the order of scores and the sort *)

Lemma xlt_false_xle a b : xlt a b = false -> xle b a = true.
Proof.
  destruct a as [|p|], b as [|r|]; cbn -[Qcompare Qle_bool]; try easy.
  destruct (Qcompare p r) eqn:E; try easy; intros _; apply Qle_bool_iff.
  - apply Qeq_alt in E. rewrite E. apply Qle_refl.
  - apply Qgt_alt in E. apply Qlt_le_weak, E.
Qed.

Lemma xlt_true_xle a b : xlt a b = true -> xle a b = true.
Proof.
  destruct a as [|p|], b as [|r|]; cbn -[Qcompare Qle_bool]; try easy.
  destruct (Qcompare p r) eqn:E; try easy; intros _; apply Qle_bool_iff.
  apply Qlt_alt in E. apply Qlt_le_weak, E.
Qed.

Lemma xle_trans a b c : xle a b = true -> xle b c = true -> xle a c = true.
Proof.
  destruct a as [|p|], b as [|r|], c as [|s|]; cbn -[Qcompare Qle_bool]; try easy.
  rewrite !Qle_bool_iff. apply Qle_trans.
Qed.

Lemma xeq_xlt_r a b v : xeq a v = true -> xlt a b = true -> xlt v b = true.
Proof.
  unfold xeq. rewrite andb_true_iff, !negb_true_iff. intros [H1 H2].
  destruct a as [|p|], b as [|r|], v as [|s|]; cbn -[Qcompare Qle_bool] in *; try easy.
  destruct (Qcompare p s) eqn:E1; try easy.
  - apply Qeq_alt in E1. destruct (Qcompare p r) eqn:E2; try easy. intros _.
    apply Qlt_alt in E2. rewrite E1 in E2. now rewrite (proj1 (Qlt_alt s r) E2).
  - destruct (Qcompare s p) eqn:E3; try easy.
    + apply Qeq_alt in E3. apply Qgt_alt in E1. rewrite E3 in E1. now apply Qlt_irrefl in E1.
    + apply Qgt_alt in E1. apply Qgt_alt in E3. exfalso. apply (Qlt_irrefl p). eapply Qlt_trans; eauto.
Qed.

Lemma xeq_xlt_false v b : xeq b v = true -> xlt v b = false.
Proof.
  unfold xeq. rewrite andb_true_iff, !negb_true_iff. tauto.
Qed.

Lemma xlt_irrefl a : xlt a a = false.
Proof.
  destruct a as [|p|]; cbn -[Qcompare]; try reflexivity.
  destruct (Qcompare p p) eqn:E; try reflexivity.
  apply Qlt_alt in E. now apply Qlt_irrefl in E.
Qed.

Lemma xle_antisym_xeq a b : xle a b = true -> xle b a = true -> xeq a b = true.
Proof.
  unfold xeq. destruct a as [|p|], b as [|r|]; cbn -[Qcompare Qle_bool]; try easy.
  rewrite !Qle_bool_iff. intros H1 H2.
  destruct (Qcompare p r) eqn:E1.
  - destruct (Qcompare r p) eqn:E2; try reflexivity.
    apply Qlt_alt in E2. apply Qeq_alt in E1. rewrite E1 in E2.
    now apply Qlt_irrefl in E2.
  - apply Qlt_alt in E1. exfalso. eapply Qlt_not_le; eauto.
  - destruct (Qcompare r p) eqn:E2; try reflexivity.
    apply Qlt_alt in E2. exfalso. eapply Qlt_not_le; eauto.
Qed.

Lemma xeq_sym a b : xeq a b = xeq b a.
Proof. unfold xeq. apply andb_comm. Qed.

Lemma xeq_refl a : xeq a a = true.
Proof. unfold xeq. now rewrite xlt_irrefl. Qed.


Section SortFacts.
Context {A : Type}.
Implicit Types (x y : xnum * A) (l : list (xnum * A)).

Lemma insert_perm reverse x l : Permutation (insert reverse x l) (x :: l).
Proof.
  induction l as [|y t IH]; cbn [insert]; [reflexivity|].
  destruct (after reverse x y); [|reflexivity].
  etransitivity; [apply perm_skip, IH | apply perm_swap].
Qed.

Lemma stable_sort_perm reverse l : Permutation (stable_sort reverse l) l.
Proof.
  induction l as [|x t IH]; simpl; [constructor|].
  etransitivity; [apply insert_perm | apply perm_skip, IH].
Qed.

Lemma desc_trans : Relations_1.Transitive (@desc A).
Proof. intros x y z Hxy Hyz. unfold desc in *. eapply xle_trans; eauto. Qed.

Lemma insert_desc x l : Sorted desc l -> Sorted desc (insert true x l).
Proof.
  induction l as [|y t IH]; cbn [insert]; intros HS.
  - repeat constructor.
  - destruct (after true x y) eqn:E.
    + inversion HS as [|? ? HS' Hd]; subst.
      constructor; [auto|].
      destruct t as [|z t']; cbn [insert].
      * constructor. apply xlt_true_xle, E.
      * destruct (after true x z); constructor.
        -- now inversion Hd.
        -- apply xlt_true_xle, E.
    + constructor; [assumption|]. constructor. apply xlt_false_xle, E.
Qed.

Lemma stable_sort_desc l : StronglySorted desc (stable_sort true l).
Proof.
  apply Sorted_StronglySorted; [exact desc_trans|].
  induction l as [|x t IH]; simpl; [constructor|]. now apply insert_desc.
Qed.

Lemma insert_filter v x l :
  filter (key_is v) (insert true x l) = filter (key_is v) (x :: l).
Proof.
  induction l as [|y t IH]; [reflexivity|].
  cbn [insert]. destruct (after true x y) eqn:E; [|reflexivity].
  change (filter (key_is v) (y :: insert true x t))
    with (if key_is v y then y :: filter (key_is v) (insert true x t)
          else filter (key_is v) (insert true x t)).
  rewrite IH. simpl.
  destruct (key_is v x) eqn:Ex; [|reflexivity].
  destruct (key_is v y) eqn:Ey; [|reflexivity].
  unfold key_is in *. simpl in E.
  pose proof (xeq_xlt_false _ _ Ey) as F.
  rewrite (xeq_xlt_r _ _ _ Ex E) in F. discriminate.
Qed.

Lemma stable_sort_filter v l :
  filter (key_is v) (stable_sort true l) = filter (key_is v) l.
Proof.
  induction l as [|x t IH]; [reflexivity|].
  simpl stable_sort. rewrite insert_filter. simpl. now rewrite IH.
Qed.
End SortFacts.

Lemma filter_head_in {A} (f : A -> bool) x t l :
  filter f l = x :: t -> In x l.
Proof.
  intros H. assert (In x (filter f l)) as Hin by (rewrite H; now left).
  now apply filter_In in Hin.
Qed.

(** Two descending lists that agree on every class of equal keys, order
    included, are the same list: what a stable sort returns does not
    depend on the algorithm. *)
Lemma filter_cons_true {A} (f : A -> bool) x t :
  f x = true -> filter f (x :: t) = x :: filter f t.
Proof. intros H. cbn [filter]. now rewrite H. Qed.

Lemma key_is_self {A} (x : xnum * A) : key_is (fst x) x = true.
Proof. apply xeq_refl. Qed.

Lemma stable_arrangement_unique {A} (l1 : list (xnum * A)) : forall l2,
  StronglySorted desc l1 -> StronglySorted desc l2 ->
  (forall v, filter (key_is v) l1 = filter (key_is v) l2) ->
  l1 = l2.
Proof.
  induction l1 as [|x t1 IH]; intros l2 S1 S2 F.
  - destruct l2 as [|y t2]; [reflexivity|].
    specialize (F (fst y)). cbn [filter] in F. rewrite key_is_self in F.
    discriminate.
  - destruct l2 as [|y t2].
    + specialize (F (fst x)). cbn [filter] in F. rewrite key_is_self in F.
      discriminate.
    + inversion S1 as [|? ? S1' Hx]; subst. inversion S2 as [|? ? S2' Hy]; subst.
      rewrite Forall_forall in Hx, Hy.
      assert (Hxy : key_is (fst y) x = true).
      { apply xle_antisym_xeq.
        - pose proof (F (fst x)) as G.
          rewrite (filter_cons_true _ x) in G by apply key_is_self. symmetry in G.
          apply filter_head_in in G as [->|Hin].
          + apply xlt_false_xle, xlt_irrefl.
          + apply (Hy x Hin).
        - pose proof (F (fst y)) as G.
          rewrite (filter_cons_true _ y) in G by apply key_is_self.
          apply filter_head_in in G as [->|Hin].
          + apply xlt_false_xle, xlt_irrefl.
          + apply (Hx y Hin). }
      assert (x = y).
      { pose proof (F (fst y)) as G. cbn [filter] in G.
        rewrite Hxy, key_is_self in G. now injection G. }
      subst y. f_equal. apply IH; auto.
      intros v. specialize (F v). cbn [filter] in F.
      destruct (key_is v x); [now injection F | assumption].
Qed.

Lemma stable_sort_is_the_stable_arrangement {A} (l l' : list (xnum * A)) :
  StronglySorted desc l' ->
  (forall v, filter (key_is v) l' = filter (key_is v) l) ->
  l' = stable_sort true l.
Proof.
  intros S F. apply stable_arrangement_unique; auto using stable_sort_desc.
  intros v. now rewrite F, stable_sort_filter.
Qed.

(** *** Results of sequenced steps *)

Lemma bind_ok {A B} (m : outcome A) (k : A -> outcome B) b :
  bind m k = Ok b -> exists a, m = Ok a /\ k a = Ok b.
Proof. destruct m; simpl; try discriminate. eauto. Qed.

Lemma mapM_ok {A B} (f : A -> outcome B) l r :
  mapM f l = Ok r <-> Forall2 (fun x y => f x = Ok y) l r.
Proof.
  revert r. induction l as [|x t IH]; intros r; simpl.
  - split; intros H; [injection H as <-; constructor | now inversion H].
  - split.
    + intros H. apply bind_ok in H as (y & Hy & H).
      apply bind_ok in H as (ys & Hys & H). injection H as <-.
      constructor; [assumption | now apply IH].
    + intros H. inversion H as [|? y ? ys Hy Hys]; subst.
      rewrite Hy. simpl. apply IH in Hys. now rewrite Hys.
Qed.

Lemma loop_is_mapM instances item_ids :
  item_ids_loop instances item_ids
  = bind (mapM instance_item_id instances) (fun r => Ok (item_ids ++ r)%list).
Proof.
  revert item_ids. induction instances as [|x t IH]; intros acc; simpl.
  - now rewrite app_nil_r.
  - unfold instance_item_id at 1.
    destruct (getitem x "input_2") as [o| |]; simpl; try reflexivity.
    destruct (index_one o) as [i| |]; simpl; try reflexivity.
    rewrite IH. destruct (mapM instance_item_id t); simpl; try reflexivity.
    now rewrite <- app_assoc.
Qed.

Lemma loop_ok instances ids :
  item_ids_loop instances [] = Ok ids <->
  Forall2 (fun x i => instance_item_id x = Ok i) instances ids.
Proof.
  rewrite loop_is_mapM, <- mapM_ok.
  destruct (mapM instance_item_id instances); simpl; split; congruence.
Qed.

Lemma find_one_spec l : forall i j,
  find_one l i = Some j ->
  i <= j /\
  (exists x, nth_error l (Z.to_nat (j - i)) = Some x /\ eq_one x = true) /\
  (forall k y, (k < Z.to_nat (j - i))%nat -> nth_error l k = Some y -> eq_one y = false).
Proof.
  induction l as [|x t IH]; intros i j; simpl; [discriminate|].
  destruct (eq_one x) eqn:E.
  - intros H. injection H as <-. rewrite Z.sub_diag. simpl.
    split; [lia|]. split; [eauto|]. intros k y Hk. lia.
  - intros H. apply IH in H as (Hle & (y & Hy & Hy1) & Hbefore).
    split; [lia|].
    replace (Z.to_nat (j - i)) with (S (Z.to_nat (j - (i + 1)))) by lia.
    split; [simpl; eauto|].
    intros [|k] z Hk; simpl; intros Hz.
    + now injection Hz as <-.
    + apply (Hbefore k z); [lia | assumption].
Qed.

Lemma find_one_some l i :
  Exists (fun x => eq_one x = true) l -> exists j, find_one l i = Some j.
Proof.
  intros H. revert i. induction H as [x t Hx | x t _ IH]; intros i; simpl.
  - rewrite Hx. eauto.
  - destruct (eq_one x); eauto.
Qed.

Lemma find_one_none l i :
  Forall (fun x => eq_one x = false) l -> find_one l i = None.
Proof.
  intros H. revert i. induction H as [|x t Hx _ IH]; intros i; simpl; [reflexivity|].
  now rewrite Hx.
Qed.

(** *** Pairing and ranking *)

Lemma pairing_ok ids : forall ps es,
  mapM item_prediction_score (combine ids ps) = Ok es <->
  exists heads,
    Forall2 (fun p h => getitem0 p = Ok h) (firstn (List.length ids) ps) heads
    /\ es = map entry (combine ids heads).
Proof.
  induction ids as [|i ids IH]; intros ps es.
  - simpl. split.
    + intros H. injection H as <-. exists []. split; constructor.
    + intros (heads & _ & ->). reflexivity.
  - destruct ps as [|p ps].
    + simpl. split.
      * intros H. injection H as <-. exists []. split; constructor.
      * intros (heads & H & ->). inversion H. reflexivity.
    + cbn [combine mapM List.length firstn]. unfold item_prediction_score at 1. split.
      * intros H. apply bind_ok in H as (e & He & H).
        apply bind_ok in He as (h & Hh & He). injection He as <-.
        apply bind_ok in H as (es' & Hes & H). injection H as <-.
        apply IH in Hes as (heads & Hheads & ->).
        exists (h :: heads). split; [now constructor | reflexivity].
      * intros (heads & H & ->). inversion H as [|? h ? heads' Hh Hrest]; subst.
        rewrite Hh. cbn [bind].
        assert (mapM item_prediction_score (combine ids ps)
                = Ok (map entry (combine ids heads'))) as ->
          by (apply IH; eauto).
        reflexivity.
Qed.

Lemma keys_of_entries pairs :
  mapM order_item_predictions (map entry pairs) = Ok (map snd pairs).
Proof.
  induction pairs as [|ip t IH]; [reflexivity|].
  cbn [map mapM]. rewrite IH. reflexivity.
Qed.

Lemma decorate_map {A B} (f : A -> B) keys (l : list A) :
  decorate keys (map f l) = option_map (map (tag f)) (decorate keys l).
Proof.
  revert l. induction keys as [|k keys IH]; intros [|x l]; try reflexivity.
  cbn [map decorate]. rewrite IH.
  destruct (number k); [|reflexivity]. now destruct (decorate keys l).
Qed.

Lemma insert_map {A B} (f : A -> B) reverse x l :
  insert reverse (tag f x) (map (tag f) l) = map (tag f) (insert reverse x l).
Proof.
  induction l as [|y t IH]; [reflexivity|].
  cbn [map insert]. change (after reverse (tag f x) (tag f y)) with (after reverse x y).
  destruct (after reverse x y); [|reflexivity]. cbn [map]. now rewrite IH.
Qed.

Lemma stable_sort_map {A B} (f : A -> B) reverse l :
  stable_sort reverse (map (tag f) l) = map (tag f) (stable_sort reverse l).
Proof.
  induction l as [|x t IH]; [reflexivity|].
  cbn [map stable_sort]. now rewrite IH, insert_map.
Qed.

Lemma decorate_pairs (pairs : list (Z * obj)) : forall kl,
  decorate (map snd pairs) pairs = Some kl ->
  map snd kl = pairs /\ Forall (fun e => number (snd (snd e)) = Some (fst e)) kl.
Proof.
  induction pairs as [|ip t IH]; intros kl; cbn [map decorate].
  - intros H. injection H as <-. split; constructor.
  - destruct (number (snd ip)) eqn:E; [|discriminate].
    destruct (decorate (map snd t) t) as [r|]; [|discriminate].
    intros H. injection H as <-. destruct (IH r eq_refl) as [Hm HF].
    split; [cbn [map snd]; now rewrite Hm|]. now constructor.
Qed.

Lemma decorate_numbers (pairs : list (Z * obj)) :
  Forall (fun ip => number (snd ip) <> None) pairs ->
  exists kl, decorate (map snd pairs) pairs = Some kl.
Proof.
  induction 1 as [|ip t Hip _ [r IH]]; cbn [map decorate]; [eauto|].
  destruct (number (snd ip)); [|contradiction]. rewrite IH. eauto.
Qed.

Lemma strongly_sorted_nth {A} (R : A -> A -> Prop) l :
  StronglySorted R l ->
  forall i j a b, (i < j)%nat ->
    nth_error l i = Some a -> nth_error l j = Some b -> R a b.
Proof.
  induction 1 as [|x t _ IH Hx]; intros i j a b Hij Ha Hb.
  - destruct i; discriminate.
  - destruct j as [|j]; [lia|]. cbn [nth_error] in Hb.
    destruct i as [|i]; cbn [nth_error] in Ha.
    + injection Ha as <-. rewrite Forall_forall in Hx.
      apply Hx. eapply nth_error_In; eauto.
    + apply (IH i j); [lia | assumption | assumption].
Qed.

Lemma sort_entries pairs out :
  list_sort order_item_predictions true (map entry pairs) = Ok out ->
  exists ranked,
    out = map entry ranked
    /\ Permutation ranked pairs
    /\ non_increasing (map snd ranked)
    /\ forall v, filter (same_score v) ranked = filter (same_score v) pairs.
Proof.
  unfold list_sort. rewrite keys_of_entries. cbn [bind].
  destruct pairs as [|a [|b t]].
  - intros H. injection H as <-. exists []. repeat split; auto.
    intros i j x y _ Hx. destruct i; discriminate.
  - intros H. injection H as <-. exists [a]. repeat split; auto.
    intros i j x y Hij _ Hy. destruct j as [|[|j]]; [lia | discriminate | discriminate].
  - set (pairs := a :: b :: t).
    change (match decorate (map snd pairs) (map entry pairs) with
            | Some kl => Ok (map snd (stable_sort true kl))
            | None => Unmodelled
            end = Ok out -> exists ranked,
              out = map entry ranked /\ Permutation ranked pairs
              /\ non_increasing (map snd ranked)
              /\ forall v, filter (same_score v) ranked = filter (same_score v) pairs).
    rewrite decorate_map.
    destruct (decorate (map snd pairs) pairs) as [kl|] eqn:D; [|discriminate].
    cbn [option_map]. intros H. injection H as <-.
    apply decorate_pairs in D as [Hkl Hnum].
    assert (Hs : Forall (fun e => number (snd (snd e)) = Some (fst e))
                   (stable_sort true kl)).
    { rewrite Forall_forall in *. intros e He. apply Hnum.
      eapply Permutation_in; [apply stable_sort_perm | exact He]. }
    exists (map snd (stable_sort true kl)). repeat split.
    + rewrite stable_sort_map, !map_map. reflexivity.
    + rewrite <- Hkl. apply Permutation_map, stable_sort_perm.
    + intros i j x y Hij Hx Hy. rewrite !nth_error_map in Hx, Hy.
      destruct (nth_error (stable_sort true kl) i) as [ei|] eqn:Ei; [|discriminate].
      destruct (nth_error (stable_sort true kl) j) as [ej|] eqn:Ej; [|discriminate].
      injection Hx as <-. injection Hy as <-.
      rewrite Forall_forall in Hs.
      exists (fst ej), (fst ei). repeat split.
      * apply Hs. eapply nth_error_In; eauto.
      * apply Hs. eapply nth_error_In; eauto.
      * exact (strongly_sorted_nth _ _ (stable_sort_desc kl) i j ei ej Hij Ei Ej).
    + intros v. rewrite <- Hkl.
      assert (G : forall l, Forall (fun e : xnum * (Z * obj) =>
                                      number (snd (snd e)) = Some (fst e)) l ->
                filter (same_score v) (map snd l) = map snd (filter (key_is v) l)).
      { induction 1 as [|e l He _ IH]; [reflexivity|].
        cbn [map filter]. unfold same_score at 1, key_is at 1. rewrite He.
        destruct (xeq (fst e) v); cbn [map]; now rewrite IH. }
      rewrite !G by assumption. now rewrite stable_sort_filter.
Qed.

Lemma sort_entries_ok pairs :
  Forall (fun ip : Z * obj => number (snd ip) <> None) pairs ->
  exists out, list_sort order_item_predictions true (map entry pairs) = Ok out.
Proof.
  intros H. unfold list_sort. rewrite keys_of_entries. cbn [bind].
  destruct pairs as [|a [|b t]];
    [eexists; reflexivity | eexists; reflexivity |].
  set (pairs := a :: b :: t) in *.
  change (exists out,
    match decorate (map snd pairs) (map entry pairs) with
    | Some kl => Ok (map snd (stable_sort true kl))
    | None => Unmodelled
    end = Ok out).
  rewrite decorate_map. destruct (decorate_numbers pairs H) as [kl ->].
  cbn [option_map]. eauto.
Qed.

Lemma ok_functional {A B} (f : A -> outcome B) l r1 r2 :
  Forall2 (fun x y => f x = Ok y) l r1 ->
  Forall2 (fun x y => f x = Ok y) l r2 -> r1 = r2.
Proof. rewrite <- !mapM_ok. congruence. Qed.

Lemma map_fst_combine_same {A B} (l : list A) : forall (l' : list B),
  List.length l = List.length l' -> map fst (combine l l') = l.
Proof.
  induction l as [|x t IH]; intros [|y t'] H; try discriminate; [reflexivity|].
  cbn [combine map fst]. f_equal. apply IH. now injection H.
Qed.

(** *** The handler, step by step *)

Ltac cases m :=
  let E := fresh "E" in
  destruct m eqn:E; cbv beta iota zeta; try discriminate; try reflexivity.

Lemma handler_stages data context w :
  handler data context w =
  match _process_input data context with
  | Ok d =>
      match instances_of d with
      | Ok inst =>
          match item_ids_loop inst [] with
          | Ok ids =>
              let w' := after_post w (rest_uri context) d in
              match server w (rest_uri context) d with
              | Ok r =>
                  match _process_output r context with
                  | Ok (prediction, ct) =>
                      match predictions_of prediction with
                      | Ok ps =>
                          match mapM item_prediction_score (combine ids ps) with
                          | Ok es =>
                              match list_sort order_item_predictions true es with
                              | Ok out =>
                                  (Ok (Json.dumps (PDict [("predictions", PList out)]), ct), w')
                              | Raise e => (Raise e, w')
                              | Unmodelled => (Unmodelled, w')
                              end
                          | Raise e => (Raise e, w')
                          | Unmodelled => (Unmodelled, w')
                          end
                      | Raise e => (Raise e, w')
                      | Unmodelled => (Unmodelled, w')
                      end
                  | Raise e => (Raise e, w')
                  | Unmodelled => (Unmodelled, w')
                  end
              | Raise e => (Raise e, w')
              | Unmodelled => (Unmodelled, w')
              end
          | Raise e => (Raise e, w)
          | Unmodelled => (Unmodelled, w)
          end
      | Raise e => (Raise e, w)
      | Unmodelled => (Unmodelled, w)
      end
  | Raise e => (Raise e, w)
  | Unmodelled => (Unmodelled, w)
  end.
Proof.
  unfold handler, seq, lift, post, ret, instances_of, predictions_of, after_post.
  cases (_process_input data context).
  cases (Json.loads a). cbn [bind].
  cases (getitem a0 "instances"). cbn [bind].
  cases (iter a1).
  cases (item_ids_loop a2 []).
  cases (server w (rest_uri context) a).
  cases (_process_output a4 context).
  destruct a5 as [prediction ct].
  cases (decode prediction). cbn [bind].
  cases (Json.loads a5). cbn [bind].
  cases (getitem a6 "predictions").
Qed.

Lemma process_input_ok data context d :
  _process_input data context = Ok d ->
  request_content_type context = Some "application/json"
  /\ decode data = Ok d.
Proof.
  unfold _process_input, str_eq.
  destruct (request_content_type context) as [t|]; [|discriminate].
  destruct (String.eqb_spec t "application/json") as [->|]; [|discriminate].
  intros H. apply bind_ok in H as (d' & Hd & H). injection H as <-.
  split; [reflexivity|]. rewrite Hd. f_equal.
  destruct d' as [|c t]; [reflexivity|].
  unfold len, chars. cbn [String.length chars_of].
  destruct (take_str (char_width (code c)) (String c t)). reflexivity.
Qed.

Lemma process_input_json data context d :
  request_content_type context = Some "application/json" ->
  decode data = Ok d ->
  _process_input data context = Ok d.
Proof.
  intros Hc Hd. unfold _process_input. rewrite Hc, Hd. cbn [str_eq bind].
  rewrite String.eqb_refl. f_equal.
  destruct d as [|c t]; [reflexivity|].
  unfold len, chars. cbn [String.length chars_of].
  destruct (take_str (char_width (code c)) (String c t)). reflexivity.
Qed.

Lemma process_output_ok r context prediction ct :
  _process_output r context = Ok (prediction, ct) <->
  status_code r = 200 /\ prediction = content r /\ ct = accept_header context.
Proof.
  unfold _process_output. destruct (Z.eqb_spec (status_code r) 200) as [E|E]; cbn [negb].
  - split; [intros H; injection H as <- <-; auto | intros (_ & -> & ->); reflexivity].
  - split; [|intros (H & _); contradiction].
    destruct (decode (content r)); discriminate.
Qed.

Lemma handler_ok_inv data context w text ct w' :
  handler data context w = (Ok (text, ct), w') ->
  exists d inst ids r ps es out,
    _process_input data context = Ok d
    /\ instances_of d = Ok inst
    /\ item_ids_loop inst [] = Ok ids
    /\ server w (rest_uri context) d = Ok r
    /\ status_code r = 200
    /\ predictions_of (content r) = Ok ps
    /\ mapM item_prediction_score (combine ids ps) = Ok es
    /\ list_sort order_item_predictions true es = Ok out
    /\ text = Json.dumps (PDict [("predictions", PList out)])
    /\ ct = accept_header context
    /\ w' = after_post w (rest_uri context) d.
Proof.
  rewrite handler_stages.
  destruct (_process_input data context) as [d| |] eqn:E1; try discriminate.
  destruct (instances_of d) as [inst| |] eqn:E2; try discriminate.
  destruct (item_ids_loop inst []) as [ids| |] eqn:E3; try discriminate.
  cbv zeta.
  destruct (server w (rest_uri context) d) as [r| |] eqn:E4; try discriminate.
  destruct (_process_output r context) as [[prediction ct']| |] eqn:Eo; try discriminate.
  apply process_output_ok in Eo as (Hs & -> & ->).
  destruct (predictions_of (content r)) as [ps| |] eqn:E5; try discriminate.
  destruct (mapM item_prediction_score (combine ids ps)) as [es| |] eqn:E6;
    try discriminate.
  destruct (list_sort order_item_predictions true es) as [out| |] eqn:E7;
    try discriminate.
  intros H. injection H as <- <- <-.
  exists d, inst, ids, r, ps, es, out. repeat split; auto.
Qed.

Lemma handler_run data context w d inst ids r ps es out :
  _process_input data context = Ok d ->
  instances_of d = Ok inst ->
  item_ids_loop inst [] = Ok ids ->
  server w (rest_uri context) d = Ok r ->
  status_code r = 200 ->
  predictions_of (content r) = Ok ps ->
  mapM item_prediction_score (combine ids ps) = Ok es ->
  list_sort order_item_predictions true es = Ok out ->
  handler data context w
  = (Ok (Json.dumps (PDict [("predictions", PList out)]), accept_header context),
     after_post w (rest_uri context) d).
Proof.
  intros H1 H2 H3 H4 H5 H6 H7 H8.
  rewrite handler_stages, H1, H2, H3. cbv zeta. rewrite H4.
  assert (_process_output r context = Ok (content r, accept_header context)) as ->
    by (apply process_output_ok; auto).
  now rewrite H6, H7, H8.
Qed.

Lemma ranking data context w text ct w' :
  handler data context w = (Ok (text, ct), w') ->
  exists d inst ids r ps heads ranked,
    _process_input data context = Ok d
    /\ instances_of d = Ok inst
    /\ item_ids_loop inst [] = Ok ids
    /\ server w (rest_uri context) d = Ok r
    /\ predictions_of (content r) = Ok ps
    /\ Forall2 (fun p h => getitem0 p = Ok h) (firstn (List.length ids) ps) heads
    /\ text = response_text ranked
    /\ Permutation ranked (combine ids heads)
    /\ non_increasing (map snd ranked)
    /\ forall v, filter (same_score v) ranked
                 = filter (same_score v) (combine ids heads).
Proof.
  intros H.
  apply handler_ok_inv in H
    as (d & inst & ids & r & ps & es & out & H1 & H2 & H3 & H4 & _ & H6 & H7 & H8 & -> & _).
  apply pairing_ok in H7 as (heads & Hh & ->).
  apply sort_entries in H8 as (ranked & -> & Hp & Hn & Hs).
  exists d, inst, ids, r, ps, heads, ranked. repeat split; auto.
Qed.

Lemma item_id_is_first_one x i :
  instance_item_id x = Ok i ->
  exists v, getitem x "input_2" = Ok (PList v) /\ first_one v i.
Proof.
  unfold instance_item_id. intros H. apply bind_ok in H as (o & Ho & H).
  destruct o as [| | | | |v|]; try discriminate H.
  cbn [index_one] in H. destruct (find_one v 0) as [j|] eqn:E; [|discriminate].
  injection H as <-. exists v. split; [assumption|].
  apply find_one_spec in E. now rewrite Z.sub_0_r in E.
Qed.

Lemma loop_without_one inst :
  Forall (fun x => exists v, getitem x "input_2" = Ok (PList v)) inst ->
  Exists (fun x => exists v, getitem x "input_2" = Ok (PList v)
                             /\ Forall (fun y => eq_one y = false) v) inst ->
  forall item_ids,
    item_ids_loop inst item_ids = Raise (ValueError "1 is not in list").
Proof.
  intros HF HE. induction HE as [x t (v & Hv & Hno) | x t _ IH]; intros acc;
    cbn [item_ids_loop].
  - rewrite Hv. cbn [bind index_one]. now rewrite find_one_none.
  - inversion HF as [|? ? (v & Hv) HF']; subst.
    rewrite Hv. cbn [bind index_one].
    destruct (find_one v 0); cbn [bind]; [apply IH, HF' | reflexivity].
Qed.

(** The handler run on the sample request of the specification. *)
Lemma sample_handled :
  handler (list_byte_of_string sample_body) sample_context
    (answering 200 sample_reply)
  = (Ok (sample_text, Some "application/json"),
     after_post (answering 200 sample_reply) (rest_uri sample_context) sample_body).
Proof. vm_compute. reflexivity. Qed.

(** ** The claims *)

(** C1, as amended.  For the request body
    [{"instances": [{"input_2":[0,1,0]}, {"input_2":[1,0,0]}]}] sent as
    application/json and a reply of status 200 with body
    [{"predictions": [[0.2],[0.9]]}], the handler makes one POST of the body
    and returns the text
    [{"predictions": [{"item_id": 0, "prediction": 0.9}, {"item_id": 1, "prediction": 0.2}]}],
    with the blank that [json.dumps] puts after every colon and comma,
    together with the accept header. *)
Theorem c1_concrete_scenario context w :
  request_content_type context = Some "application/json" ->
  server w (rest_uri context) sample_body = Ok sample_response ->
  handler (list_byte_of_string sample_body) context w
  = (Ok (sample_text, accept_header context),
     after_post w (rest_uri context) sample_body).
Proof.
  intros Hc Hs.
  etransitivity.
  - eapply handler_run.
    + apply process_input_json; [exact Hc | vm_compute; reflexivity].
    + vm_compute; reflexivity.
    + vm_compute; reflexivity.
    + exact Hs.
    + reflexivity.
    + vm_compute; reflexivity.
    + vm_compute; reflexivity.
    + vm_compute; reflexivity.
  - vm_compute. reflexivity.
Qed.

Lemma c1_concrete_scenario_witness :
  handler (list_byte_of_string sample_body) sample_context
    (answering 200 sample_reply)
  = (Ok (sample_text, Some "application/json"),
     after_post (answering 200 sample_reply) (rest_uri sample_context) sample_body).
Proof.
  apply (c1_concrete_scenario sample_context (answering 200 sample_reply));
    reflexivity.
Defined.

(** C1, as stated, fails: on that request and reply the handler does not
    return the text without blanks,
    [{"predictions":[{"item_id":0,"prediction":0.9},{"item_id":1,"prediction":0.2}]}],
    whatever content type is put beside it. *)
Lemma c1_compact_text_not_returned :
  ~ exists ct,
      fst (handler (list_byte_of_string sample_body) sample_context
             (answering 200 sample_reply))
      = Ok (compact_text, ct).
Proof.
  intros [ct H]. vm_compute in H. discriminate H.
Qed.

(** C2.  Whenever the handler returns a response, the text is the
    serialisation of a list of ranked entries whose prediction values never
    increase from the first entry to the last. *)
Theorem c2_scores_non_increasing data context w text ct w' :
  handler data context w = (Ok (text, ct), w') ->
  exists ranked,
    text = response_text ranked /\ non_increasing (map snd ranked).
Proof.
  intros H. apply ranking in H
    as (d & inst & ids & r & ps & heads & ranked
        & _ & _ & _ & _ & _ & _ & Ht & _ & Hn & _).
  eauto.
Qed.

Lemma c2_scores_non_increasing_witness :
  exists ranked,
    sample_text = response_text ranked /\ non_increasing (map snd ranked).
Proof.
  apply (c2_scores_non_increasing (list_byte_of_string sample_body) sample_context
           (answering 200 sample_reply) sample_text (Some "application/json")
           (after_post (answering 200 sample_reply) (rest_uri sample_context)
              sample_body)).
  vm_compute. reflexivity.
Defined.

(** C3.  When the handler returns a response and the reply holds as many
    predictions as the request holds instances, the returned list has one
    entry for each instance, and its item ids are, up to order and counted
    with repetitions, the ids the loop extracted - each of them the index
    of the first 1 of its instance. *)
Theorem c3_length_and_item_ids data context w text ct w' d inst ids r ps :
  handler data context w = (Ok (text, ct), w') ->
  _process_input data context = Ok d ->
  instances_of d = Ok inst ->
  item_ids_loop inst [] = Ok ids ->
  server w (rest_uri context) d = Ok r ->
  predictions_of (content r) = Ok ps ->
  List.length ps = List.length inst ->
  exists ranked,
    text = response_text ranked
    /\ List.length ranked = List.length inst
    /\ Permutation (map fst ranked) ids
    /\ Forall2 (fun x i => exists v, getitem x "input_2" = Ok (PList v)
                                     /\ first_one v i) inst ids.
Proof.
  intros H H1 H2 H3 H4 H5 Hlen.
  apply ranking in H
    as (d' & inst' & ids' & r' & ps' & heads & ranked
        & E1 & E2 & E3 & E4 & E5 & Hh & Ht & Hp & _ & _).
  rewrite H1 in E1. injection E1 as <-.
  rewrite H2 in E2. injection E2 as <-.
  rewrite H3 in E3. injection E3 as <-.
  rewrite H4 in E4. injection E4 as <-.
  rewrite H5 in E5. injection E5 as <-.
  apply loop_ok in H3.
  assert (Hi : List.length ids = List.length inst)
    by (symmetry; eapply Forall2_length, H3).
  assert (Hl : List.length heads = List.length ids).
  { apply Forall2_length in Hh. rewrite <- Hh, length_firstn. lia. }
  exists ranked. split; [assumption|]. split; [|split].
  - rewrite (Permutation_length Hp), length_combine. lia.
  - rewrite (Permutation_map fst Hp). now rewrite map_fst_combine_same.
  - eapply Forall2_impl; [|exact H3]. apply item_id_is_first_one.
Qed.

Lemma c3_length_and_item_ids_witness :
  exists ranked,
    sample_text = response_text ranked
    /\ List.length ranked = List.length sample_instances
    /\ Permutation (map fst ranked) [1; 0]
    /\ Forall2 (fun x i => exists v, getitem x "input_2" = Ok (PList v)
                                     /\ first_one v i) sample_instances [1; 0].
Proof.
  apply (c3_length_and_item_ids (list_byte_of_string sample_body) sample_context
           (answering 200 sample_reply) sample_text (Some "application/json")
           (after_post (answering 200 sample_reply) (rest_uri sample_context)
              sample_body)
           sample_body sample_instances [1; 0] sample_response sample_predictions);
    vm_compute; reflexivity.
Defined.

(** C4.  When the declared content type is anything but exactly
    application/json, the handler raises the error whose message is
    [{"error": "unsupported content type T"}], where T is the declared
    type, or [unknown] when none is declared; the world is left as it was:
    no POST is made. *)
Theorem c4_unsupported_content_type data context w :
  request_content_type context <> Some "application/json" ->
  exists shown,
    handler data context w
    = (Raise (ValueError
                (q "{'error': 'unsupported content type " ++ shown ++ q "'}")), w)
    /\ (forall t, request_content_type context = Some t -> t <> EmptyString ->
                  shown = t)
    /\ (request_content_type context = None -> shown = "unknown").
Proof.
  intros Hc. exists (or_else (request_content_type context) "unknown").
  split; [|split].
  - rewrite handler_stages. unfold _process_input, str_eq.
    destruct (request_content_type context) as [t|]; [|reflexivity].
    destruct (String.eqb_spec t "application/json") as [->|]; [|reflexivity].
    now contradiction Hc.
  - intros t -> Ht. destruct t; [contradiction|reflexivity].
  - intros ->. reflexivity.
Qed.

Lemma c4_unsupported_content_type_witness :
  exists shown,
    handler (list_byte_of_string sample_body) plain_text_context
      (answering 200 sample_reply)
    = (Raise (ValueError
                (q "{'error': 'unsupported content type " ++ shown ++ q "'}")),
       answering 200 sample_reply)
    /\ (forall t, request_content_type plain_text_context = Some t ->
                  t <> EmptyString -> shown = t)
    /\ (request_content_type plain_text_context = None -> shown = "unknown").
Proof.
  apply (c4_unsupported_content_type (list_byte_of_string sample_body)
           plain_text_context (answering 200 sample_reply)).
  vm_compute. discriminate.
Defined.

(** C5.  When the model server answers with a status other than 200 (the
    request having passed the steps before the POST, and the body of the
    answer being decodable text), the handler raises the error whose
    message is exactly that body decoded; no response is returned, and the
    one POST has been made. *)
Theorem c5_model_server_error data context w d inst ids r msg :
  _process_input data context = Ok d ->
  instances_of d = Ok inst ->
  item_ids_loop inst [] = Ok ids ->
  server w (rest_uri context) d = Ok r ->
  status_code r <> 200 ->
  decode (content r) = Ok msg ->
  handler data context w
  = (Raise (ValueError msg), after_post w (rest_uri context) d)
  /\ msg = string_of_list_byte (content r).
Proof.
  intros H1 H2 H3 H4 Hs Hm. split.
  - rewrite handler_stages, H1, H2, H3. cbv zeta. rewrite H4.
    unfold _process_output.
    destruct (Z.eqb_spec (status_code r) 200); [contradiction|].
    cbn [negb]. now rewrite Hm.
  - unfold decode in Hm.
    destruct (utf8_ok _); [now injection Hm as <- | discriminate].
Qed.

Lemma c5_model_server_error_witness :
  handler (list_byte_of_string sample_body) sample_context
    (answering 500 "server overloaded")
  = (Raise (ValueError "server overloaded"),
     after_post (answering 500 "server overloaded") (rest_uri sample_context)
       sample_body)
  /\ "server overloaded" = string_of_list_byte (content overloaded).
Proof.
  apply (c5_model_server_error (list_byte_of_string sample_body) sample_context
           (answering 500 "server overloaded") sample_body sample_instances [1; 0]
           overloaded "server overloaded");
    try (vm_compute; reflexivity).
  vm_compute. discriminate.
Defined.

(** C6.  When every instance carries a one-hot list and one of them holds
    no element equal to 1, the handler raises the error of [list.index],
    [1 is not in list], for the whole request: nothing is returned and no
    POST is made.  And the loop never drops an instance: whenever it
    completes, it has added one id for each instance it was given. *)
Theorem c6_missing_one_fails data context w d inst :
  _process_input data context = Ok d ->
  instances_of d = Ok inst ->
  Forall (fun x => exists v, getitem x "input_2" = Ok (PList v)) inst ->
  Exists (fun x => exists v, getitem x "input_2" = Ok (PList v)
                             /\ Forall (fun y => eq_one y = false) v) inst ->
  handler data context w = (Raise (ValueError "1 is not in list"), w)
  /\ forall instances item_ids ids,
       item_ids_loop instances item_ids = Ok ids ->
       List.length ids = (List.length item_ids + List.length instances)%nat.
Proof.
  intros H1 H2 HF HE. split.
  - rewrite handler_stages, H1, H2. now rewrite (loop_without_one inst HF HE).
  - intros instances item_ids ids H. rewrite loop_is_mapM in H.
    apply bind_ok in H as (r & Hr & H). injection H as <-.
    apply mapM_ok, Forall2_length in Hr. rewrite length_app. lia.
Qed.

Lemma c6_missing_one_fails_witness :
  handler (list_byte_of_string body_without_one) sample_context
    (answering 200 sample_reply)
  = (Raise (ValueError "1 is not in list"), answering 200 sample_reply)
  /\ forall instances item_ids ids,
       item_ids_loop instances item_ids = Ok ids ->
       List.length ids = (List.length item_ids + List.length instances)%nat.
Proof.
  apply (c6_missing_one_fails (list_byte_of_string body_without_one) sample_context
           (answering 200 sample_reply) body_without_one instances_without_one).
  - vm_compute. reflexivity.
  - vm_compute. reflexivity.
  - repeat constructor; eexists; reflexivity.
  - apply Exists_cons_tl, Exists_cons_hd. eexists. split; [reflexivity|].
    repeat constructor.
Defined.

(** C7.  For an instance whose one-hot list holds at least one element
    equal to 1, the round of the loop raises nothing and appends the
    zero-based index of the first such element - the smallest one when
    there are several. *)
Theorem c7_first_one_index instance rest item_ids v :
  getitem instance "input_2" = Ok (PList v) ->
  Exists (fun y => eq_one y = true) v ->
  exists i,
    first_one v i
    /\ item_ids_loop (instance :: rest) item_ids
       = item_ids_loop rest (item_ids ++ [i]).
Proof.
  intros Hv He. destruct (find_one_some v 0 He) as [i Hi].
  exists i. split.
  - apply find_one_spec in Hi. now rewrite Z.sub_0_r in Hi.
  - cbn [item_ids_loop]. rewrite Hv. cbn [bind index_one]. now rewrite Hi.
Qed.

Lemma c7_first_one_index_witness :
  exists i,
    first_one two_ones i
    /\ item_ids_loop [PDict [("input_2", PList two_ones)]] [7]
       = item_ids_loop [] ([7] ++ [i]).
Proof.
  apply (c7_first_one_index (PDict [("input_2", PList two_ones)]) [] [7]).
  - reflexivity.
  - apply Exists_cons_tl, Exists_cons_hd. vm_compute. reflexivity.
Defined.

(** C8.  For a request with no instances, the handler still makes exactly
    one POST, of the request body as it came, and returns the text
    [{"predictions": []}] whatever predictions the reply of status 200
    holds. *)
Theorem c8_empty_batch data context w d r ps :
  _process_input data context = Ok d ->
  instances_of d = Ok [] ->
  server w (rest_uri context) d = Ok r ->
  status_code r = 200 ->
  predictions_of (content r) = Ok ps ->
  handler data context w
  = (Ok (q "{'predictions': []}", accept_header context),
     after_post w (rest_uri context) d)
  /\ d = string_of_list_byte data.
Proof.
  intros H1 H2 H3 H4 H5. split.
  - now rewrite (handler_run data context w d [] [] r ps [] []).
  - apply process_input_ok in H1 as [_ H1]. unfold decode in H1.
    destruct (utf8_ok _); [now injection H1 as <- | discriminate].
Qed.

Lemma c8_empty_batch_witness :
  handler (list_byte_of_string empty_batch) sample_context
    (answering 200 sample_reply)
  = (Ok (q "{'predictions': []}", Some "application/json"),
     after_post (answering 200 sample_reply) (rest_uri sample_context) empty_batch)
  /\ empty_batch = string_of_list_byte (list_byte_of_string empty_batch).
Proof.
  apply (c8_empty_batch (list_byte_of_string empty_batch) sample_context
           (answering 200 sample_reply) empty_batch sample_response
           sample_predictions);
    vm_compute; reflexivity.
Defined.

(** C9.  Whenever the handler returns a response, the entries whose
    scores are equal stand in the returned list in the order in which
    their instances stood in the request: for every score value, the
    entries with that score are the same sequence before and after the
    sort. *)
Theorem c9_equal_scores_keep_input_order
  data context w text ct w' d inst ids r ps heads :
  handler data context w = (Ok (text, ct), w') ->
  _process_input data context = Ok d ->
  instances_of d = Ok inst ->
  item_ids_loop inst [] = Ok ids ->
  server w (rest_uri context) d = Ok r ->
  predictions_of (content r) = Ok ps ->
  Forall2 (fun p h => getitem0 p = Ok h) (firstn (List.length ids) ps) heads ->
  exists ranked,
    text = response_text ranked
    /\ forall v, filter (same_score v) ranked
                 = filter (same_score v) (combine ids heads).
Proof.
  intros H H1 H2 H3 H4 H5 Hh.
  apply ranking in H
    as (d' & inst' & ids' & r' & ps' & heads' & ranked
        & E1 & E2 & E3 & E4 & E5 & Hh' & Ht & _ & _ & Hs).
  rewrite H1 in E1. injection E1 as <-.
  rewrite H2 in E2. injection E2 as <-.
  rewrite H3 in E3. injection E3 as <-.
  rewrite H4 in E4. injection E4 as <-.
  rewrite H5 in E5. injection E5 as <-.
  rewrite (ok_functional _ _ _ _ Hh Hh'). eauto.
Qed.

Lemma c9_equal_scores_keep_input_order_witness :
  exists ranked,
    tied_text = response_text ranked
    /\ forall v, filter (same_score v) ranked
                 = filter (same_score v) (combine [1; 0; 2] tied_scores).
Proof.
  apply (c9_equal_scores_keep_input_order
           (list_byte_of_string tied_body) sample_context (answering 200 tied_reply)
           tied_text (Some "application/json")
           (after_post (answering 200 tied_reply) (rest_uri sample_context) tied_body)
           tied_body tied_instances [1; 0; 2]
           {| status_code := 200; content := list_byte_of_string tied_reply |}
           (map (fun s => PList [s]) tied_scores));
    try (vm_compute; reflexivity).
  repeat constructor.
Defined.

(** C10.  Whatever the number of predictions in the reply - in particular
    when it differs from the number of instances - the handler does not
    fail, provided each prediction it uses starts with a number: ids and
    scores are paired by position, what is left over on the longer side is
    dropped, and the returned list has as many entries as the shorter of
    the two sequences. *)
Theorem c10_length_mismatch_truncates data context w d inst ids r ps :
  _process_input data context = Ok d ->
  instances_of d = Ok inst ->
  item_ids_loop inst [] = Ok ids ->
  server w (rest_uri context) d = Ok r ->
  status_code r = 200 ->
  predictions_of (content r) = Ok ps ->
  Forall (fun p => exists s, getitem0 p = Ok s /\ number s <> None)
         (firstn (List.length inst) ps) ->
  exists heads ranked,
    handler data context w
    = (Ok (response_text ranked, accept_header context),
       after_post w (rest_uri context) d)
    /\ Forall2 (fun p h => getitem0 p = Ok h) (firstn (List.length inst) ps) heads
    /\ Permutation ranked (combine ids heads)
    /\ List.length ranked = Nat.min (List.length inst) (List.length ps).
Proof.
  intros H1 H2 H3 H4 H5 H6 HF.
  assert (Hi : List.length ids = List.length inst)
    by (symmetry; eapply Forall2_length, loop_ok, H3).
  rewrite <- Hi in *.
  assert (exists heads,
             Forall2 (fun p h => getitem0 p = Ok h)
               (firstn (List.length ids) ps) heads
             /\ Forall (fun h => number h <> None) heads) as (heads & Hh & Hn).
  { induction HF as [|p t (s & Hs & Hnum) _ (hs & Hhs & Hns)].
    - exists []. split; constructor.
    - exists (s :: hs). split; constructor; assumption. }
  assert (Hl : List.length heads = Nat.min (List.length ids) (List.length ps)).
  { apply Forall2_length in Hh. now rewrite <- Hh, length_firstn. }
  assert (Hnum : Forall (fun ip : Z * obj => number (snd ip) <> None)
                   (combine ids heads)).
  { rewrite Forall_forall in *. intros [i h] Hin. apply Hn.
    eapply in_combine_r, Hin. }
  destruct (sort_entries_ok _ Hnum) as [out Hout].
  destruct (sort_entries _ _ Hout) as (ranked & -> & Hp & _ & _).
  exists heads, ranked. split; [|split; [|split]].
  - apply (handler_run data context w d inst ids r ps
             (map entry (combine ids heads)) (map entry ranked)); auto.
    apply pairing_ok. eauto.
  - assumption.
  - assumption.
  - rewrite (Permutation_length Hp), length_combine. lia.
Qed.

Lemma c10_length_mismatch_truncates_witness :
  exists heads ranked,
    handler (list_byte_of_string sample_body) sample_context
      (answering 200 long_reply)
    = (Ok (response_text ranked, Some "application/json"),
       after_post (answering 200 long_reply) (rest_uri sample_context) sample_body)
    /\ Forall2 (fun p h => getitem0 p = Ok h)
         (firstn (List.length sample_instances) long_predictions) heads
    /\ Permutation ranked (combine [1; 0] heads)
    /\ List.length ranked
       = Nat.min (List.length sample_instances) (List.length long_predictions).
Proof.
  apply (c10_length_mismatch_truncates
           (list_byte_of_string sample_body) sample_context (answering 200 long_reply)
           sample_body sample_instances [1; 0]
           {| status_code := 200; content := list_byte_of_string long_reply |}
           long_predictions);
    try (vm_compute; reflexivity).
  repeat constructor; eexists; (split; [reflexivity | vm_compute; discriminate]).
Defined.

(** ** Further properties of inference.py *)

Lemma decode_ok b d : decode b = Ok d -> d = string_of_list_byte b.
Proof.
  unfold decode. destruct (utf8_ok _); [now intros [= <-] | discriminate].
Qed.

Lemma mapM_raise_at {A B} (f : A -> outcome B) pre x post e ys :
  mapM f pre = Ok ys -> f x = Raise e -> mapM f (pre ++ x :: post) = Raise e.
Proof.
  revert ys. induction pre as [|a t IH]; intros ys Hp Hx; cbn [app mapM].
  - now rewrite Hx.
  - cbn [mapM] in Hp. apply bind_ok in Hp as (y & Hy & Hp).
    apply bind_ok in Hp as (ys' & Hys & _).
    rewrite Hy. cbn [bind]. now rewrite (IH ys' Hys Hx).
Qed.

Lemma pairing_as_heads ids : forall ps,
  mapM item_prediction_score (combine ids ps)
  = bind (mapM getitem0 (firstn (List.length ids) ps))
         (fun heads => Ok (map entry (combine ids heads))).
Proof.
  induction ids as [|i ids IH]; intros ps; [reflexivity|].
  destruct ps as [|p ps]; [reflexivity|].
  cbn [combine mapM List.length firstn]. unfold item_prediction_score at 1.
  destruct (getitem0 p) as [h| |]; cbn [bind]; try reflexivity.
  rewrite IH. destruct (mapM getitem0 (firstn (List.length ids) ps)); reflexivity.
Qed.

Ltac stages H1 H2 H3 :=
  rewrite handler_stages, H1, H2, H3; cbv zeta.

(** X1.  [_process_input] returns a text exactly when the content type is
    application/json and the body is well-formed UTF-8, and the text is then
    the body itself, byte for byte - the empty body included. *)
Theorem x1_process_input_passes_body_through data context d :
  _process_input data context = Ok d <->
  request_content_type context = Some "application/json"
  /\ decode data = Ok d
  /\ d = string_of_list_byte data.
Proof.
  split.
  - intros H. apply process_input_ok in H as [Hc Hd].
    repeat split; auto using decode_ok.
  - intros (Hc & Hd & _). now apply process_input_json.
Qed.

(** X2.  A body that is not well-formed UTF-8, sent as application/json,
    makes the handler raise UnicodeDecodeError; no POST is made. *)
Theorem x2_undecodable_request_body data context w :
  request_content_type context = Some "application/json" ->
  decode data = Raise UnicodeDecodeError ->
  handler data context w = (Raise UnicodeDecodeError, w).
Proof.
  intros Hc Hd. rewrite handler_stages. unfold _process_input.
  rewrite Hc, Hd. cbn [str_eq bind]. now rewrite String.eqb_refl.
Qed.

Lemma x2_undecodable_request_body_witness :
  handler undecodable sample_context (answering 200 sample_reply)
  = (Raise UnicodeDecodeError, answering 200 sample_reply).
Proof.
  apply (x2_undecodable_request_body undecodable sample_context
           (answering 200 sample_reply)); vm_compute; reflexivity.
Defined.

(** X3.  The loop stops at the first instance it cannot read: the error of
    that instance (a missing [input_2], a field that is no list, a list
    without 1) is the error of the request, whatever the instances behind
    it hold, and no POST is made. *)
Theorem x3_first_failing_instance_decides data context w d pre x post ids e :
  _process_input data context = Ok d ->
  instances_of d = Ok (pre ++ x :: post)%list ->
  item_ids_loop pre [] = Ok ids ->
  instance_item_id x = Raise e ->
  handler data context w = (Raise e, w).
Proof.
  intros H1 H2 H3 Hx. rewrite handler_stages, H1, H2.
  rewrite loop_is_mapM in *.
  apply bind_ok in H3 as (r & Hr & _).
  now rewrite (mapM_raise_at _ _ _ _ _ _ Hr Hx).
Qed.

Lemma x3_first_failing_instance_decides_witness :
  handler (list_byte_of_string body_missing_field) sample_context
    (answering 200 sample_reply)
  = (Raise (KeyError (PStr "input_2")), answering 200 sample_reply).
Proof.
  apply (x3_first_failing_instance_decides
           (list_byte_of_string body_missing_field) sample_context
           (answering 200 sample_reply) body_missing_field
           [PDict [("input_2", PList [PInt 1])]]
           (PDict [("input_1", PList [PInt 1])]) [PInt 5] [0]);
    vm_compute; reflexivity.
Defined.

(** X4.  A request whose body cannot be read as an object with iterable
    [instances] (malformed JSON, a wrong top-level type, a missing key) is
    answered with the error of the step that failed and is not forwarded to
    the model server. *)
Theorem x4_unreadable_request_is_not_forwarded data context w d e :
  _process_input data context = Ok d ->
  instances_of d = Raise e ->
  handler data context w = (Raise e, w).
Proof. intros H1 H2. now rewrite handler_stages, H1, H2. Qed.

Lemma x4_unreadable_request_is_not_forwarded_witness :
  handler (list_byte_of_string "not json") sample_context
    (answering 200 sample_reply)
  = (Raise JSONDecodeError, answering 200 sample_reply).
Proof.
  apply (x4_unreadable_request_is_not_forwarded
           (list_byte_of_string "not json") sample_context
           (answering 200 sample_reply) "not json");
    vm_compute; reflexivity.
Defined.

(** X5.  A JSON object without the key [instances] makes the handler raise
    KeyError for that key; no POST is made. *)
Theorem x5_missing_instances_key data context w d kv :
  _process_input data context = Ok d ->
  Json.loads d = Ok (PDict kv) ->
  lookup "instances" kv = None ->
  handler data context w = (Raise (KeyError (PStr "instances")), w).
Proof.
  intros H1 H2 H3. rewrite handler_stages, H1. unfold instances_of.
  rewrite H2. cbn [bind getitem]. now rewrite H3.
Qed.

Lemma x5_missing_instances_key_witness :
  handler (list_byte_of_string body_without_instances) sample_context
    (answering 200 sample_reply)
  = (Raise (KeyError (PStr "instances")), answering 200 sample_reply).
Proof.
  apply (x5_missing_instances_key
           (list_byte_of_string body_without_instances) sample_context
           (answering 200 sample_reply) body_without_instances
           [("inputs", PList [])]);
    vm_compute; reflexivity.
Defined.

Lemma not_own_extension {A} (l : list A) x : l <> (l ++ [x])%list.
Proof.
  intros H. apply (f_equal (@List.length A)) in H.
  rewrite length_app in H. cbn in H. lia.
Qed.

(** What a run leaves in the world, according to how far it got. *)
Lemma handler_world data context w :
  (exists d inst ids,
      _process_input data context = Ok d
      /\ instances_of d = Ok inst
      /\ item_ids_loop inst [] = Ok ids
      /\ snd (handler data context w) = after_post w (rest_uri context) d)
  \/ ((forall d inst ids,
         _process_input data context = Ok d ->
         instances_of d = Ok inst ->
         item_ids_loop inst [] = Ok ids -> False)
      /\ snd (handler data context w) = w).
Proof.
  rewrite handler_stages.
  destruct (_process_input data context) as [d| |] eqn:E1;
    [|right; split; [intros; discriminate | reflexivity]..].
  destruct (instances_of d) as [inst| |] eqn:E2;
    [|right; split;
      [intros d' inst' ids' [= <-] H; rewrite E2 in H; discriminate
      | reflexivity]..].
  destruct (item_ids_loop inst []) as [ids| |] eqn:E3;
    [|right; split;
      [intros d' inst' ids' [= <-] H H'; rewrite E2 in H; injection H as <-;
       rewrite E3 in H'; discriminate
      | reflexivity]..].
  left. exists d, inst, ids. repeat split; auto. cbv zeta.
  destruct (server w (rest_uri context) d) as [r| |]; try reflexivity.
  destruct (_process_output r context) as [[p c]| |]; try reflexivity.
  destruct (predictions_of p) as [ps| |]; try reflexivity.
  destruct (mapM item_prediction_score (combine ids ps)) as [es| |];
    try reflexivity.
  destruct (list_sort order_item_predictions true es); reflexivity.
Qed.

(** X6.  Whatever the request and whatever the outcome, the handler makes
    at most one POST: the list of POSTs is left as it was or grows by one
    entry, which carries the URI of the context and the request body byte
    for byte. *)
Theorem x6_at_most_one_post_of_the_body data context w :
  server (snd (handler data context w)) = server w
  /\ (posted (snd (handler data context w)) = posted w
      \/ posted (snd (handler data context w))
         = (posted w ++ [(rest_uri context, string_of_list_byte data)])%list).
Proof.
  destruct (handler_world data context w)
    as [(d & inst & ids & H1 & _ & _ & ->) | [_ ->]].
  - apply process_input_ok in H1 as [_ Hd]. apply decode_ok in Hd as ->.
    split; [reflexivity | now right].
  - split; [reflexivity | now left].
Qed.

(** X7.  The POST is made exactly when the request passed every step before
    it: accepted content type, decodable body, readable instances, an item
    id for each instance.  What happens after the POST has no part in it. *)
Theorem x7_post_exactly_when_ids_extracted data context w :
  posted (snd (handler data context w))
  = (posted w ++ [(rest_uri context, string_of_list_byte data)])%list
  <->
  exists d inst ids,
    _process_input data context = Ok d
    /\ instances_of d = Ok inst
    /\ item_ids_loop inst [] = Ok ids.
Proof.
  destruct (handler_world data context w)
    as [(d & inst & ids & H1 & H2 & H3 & ->) | [Hno ->]].
  - split; [eauto 7|]. intros _.
    apply process_input_ok in H1 as [_ Hd]. now apply decode_ok in Hd as ->.
  - split.
    + intros H. now apply not_own_extension in H.
    + intros (d & inst & ids & H1 & H2 & H3). now destruct (Hno d inst ids).
Qed.

(** X8.  An exception of the transport is raised by the handler unchanged,
    after the one POST attempt; nothing is retried. *)
Theorem x8_transport_error_propagates data context w d inst ids e :
  _process_input data context = Ok d ->
  instances_of d = Ok inst ->
  item_ids_loop inst [] = Ok ids ->
  server w (rest_uri context) d = Raise e ->
  handler data context w = (Raise e, after_post w (rest_uri context) d).
Proof. intros H1 H2 H3 H4. stages H1 H2 H3. now rewrite H4. Qed.

Lemma x8_transport_error_propagates_witness :
  handler (list_byte_of_string sample_body) sample_context refusing
  = (Raise RequestException,
     after_post refusing (rest_uri sample_context) sample_body).
Proof.
  apply (x8_transport_error_propagates (list_byte_of_string sample_body)
           sample_context refusing sample_body sample_instances [1; 0]);
    vm_compute; reflexivity.
Defined.

(** X9.  When the model server answers with a status other than 200 and a
    body that is not well-formed UTF-8, the error raised is
    UnicodeDecodeError, not the error that carries the body. *)
Theorem x9_undecodable_error_body data context w d inst ids r :
  _process_input data context = Ok d ->
  instances_of d = Ok inst ->
  item_ids_loop inst [] = Ok ids ->
  server w (rest_uri context) d = Ok r ->
  status_code r <> 200 ->
  decode (content r) = Raise UnicodeDecodeError ->
  handler data context w
  = (Raise UnicodeDecodeError, after_post w (rest_uri context) d).
Proof.
  intros H1 H2 H3 H4 Hs Hd. stages H1 H2 H3. rewrite H4.
  unfold _process_output.
  destruct (Z.eqb_spec (status_code r) 200); [contradiction|].
  cbn [negb]. now rewrite Hd.
Qed.

Lemma x9_undecodable_error_body_witness :
  handler (list_byte_of_string sample_body) sample_context
    (answering_bytes 503 undecodable)
  = (Raise UnicodeDecodeError,
     after_post (answering_bytes 503 undecodable) (rest_uri sample_context)
       sample_body).
Proof.
  apply (x9_undecodable_error_body (list_byte_of_string sample_body)
           sample_context (answering_bytes 503 undecodable) sample_body
           sample_instances [1; 0]
           {| status_code := 503; content := undecodable |});
    try (vm_compute; reflexivity).
  vm_compute. discriminate.
Defined.

(** X10.  A reply of status 200 whose body cannot be read as an object
    with iterable [predictions] (bad UTF-8, malformed JSON, a missing key)
    makes the handler raise the error of the step that failed, after the
    POST. *)
Theorem x10_unreadable_reply_raises_after_post data context w d inst ids r e :
  _process_input data context = Ok d ->
  instances_of d = Ok inst ->
  item_ids_loop inst [] = Ok ids ->
  server w (rest_uri context) d = Ok r ->
  status_code r = 200 ->
  predictions_of (content r) = Raise e ->
  handler data context w = (Raise e, after_post w (rest_uri context) d).
Proof.
  intros H1 H2 H3 H4 Hs Hp. stages H1 H2 H3. rewrite H4.
  assert (_process_output r context = Ok (content r, accept_header context)) as ->
    by (apply process_output_ok; auto).
  now rewrite Hp.
Qed.

Lemma x10_unreadable_reply_raises_after_post_witness :
  handler (list_byte_of_string sample_body) sample_context
    (answering 200 reply_without_predictions)
  = (Raise (KeyError (PStr "predictions")),
     after_post (answering 200 reply_without_predictions)
       (rest_uri sample_context) sample_body).
Proof.
  apply (x10_unreadable_reply_raises_after_post
           (list_byte_of_string sample_body) sample_context
           (answering 200 reply_without_predictions) sample_body
           sample_instances [1; 0]
           {| status_code := 200;
              content := list_byte_of_string reply_without_predictions |});
    vm_compute; reflexivity.
Defined.

(** X11.  Among the predictions that have an instance, the first entry
    without a first element (an empty list, a number, null) decides: its
    error - IndexError for an empty list - is raised, after the POST. *)
Theorem x11_unusable_prediction_entry
  data context w d inst ids r ps pre p post heads e :
  _process_input data context = Ok d ->
  instances_of d = Ok inst ->
  item_ids_loop inst [] = Ok ids ->
  server w (rest_uri context) d = Ok r ->
  status_code r = 200 ->
  predictions_of (content r) = Ok ps ->
  firstn (List.length ids) ps = (pre ++ p :: post)%list ->
  Forall2 (fun p h => getitem0 p = Ok h) pre heads ->
  getitem0 p = Raise e ->
  handler data context w = (Raise e, after_post w (rest_uri context) d).
Proof.
  intros H1 H2 H3 H4 Hs Hp Hf Hpre He. stages H1 H2 H3. rewrite H4.
  assert (_process_output r context = Ok (content r, accept_header context)) as ->
    by (apply process_output_ok; auto).
  rewrite Hp, pairing_as_heads, Hf.
  apply mapM_ok in Hpre. now rewrite (mapM_raise_at _ _ _ _ _ _ Hpre He).
Qed.

Lemma x11_unusable_prediction_entry_witness :
  handler (list_byte_of_string sample_body) sample_context
    (answering 200 reply_with_empty_entry)
  = (Raise IndexError,
     after_post (answering 200 reply_with_empty_entry)
       (rest_uri sample_context) sample_body).
Proof.
  apply (x11_unusable_prediction_entry
           (list_byte_of_string sample_body) sample_context
           (answering 200 reply_with_empty_entry) sample_body
           sample_instances [1; 0]
           {| status_code := 200;
              content := list_byte_of_string reply_with_empty_entry |}
           [PList [PFloat (float_of_decimal false 2 (-1))]; PList []]
           [PList [PFloat (float_of_decimal false 2 (-1))]] (PList []) []
           [PFloat (float_of_decimal false 2 (-1))]);
    try (vm_compute; reflexivity).
  repeat constructor.
Defined.

Lemma nth_strongly_sorted {A} (R : A -> A -> Prop) l :
  (forall i j a b, (i < j)%nat ->
     nth_error l i = Some a -> nth_error l j = Some b -> R a b) ->
  StronglySorted R l.
Proof.
  induction l as [|x t IH]; intros H; constructor.
  - apply IH. intros i j a b Hij Ha Hb. apply (H (S i) (S j)); [lia | auto..].
  - apply Forall_forall. intros y Hy. apply In_nth_error in Hy as [n Hn].
    apply (H 0%nat (S n)); [lia | reflexivity | exact Hn].
Qed.

Lemma non_increasing_numbers scores :
  (2 <= List.length scores)%nat -> non_increasing scores ->
  Forall (fun s => number s <> None) scores.
Proof.
  intros Hlen H. apply Forall_forall. intros s Hs.
  apply In_nth_error in Hs as [k Hk]. destruct k as [|k].
  - destruct scores as [|a [|b t]]; cbn in Hlen; try lia.
    cbn in Hk. injection Hk as <-.
    destruct (H 0%nat 1%nat a b) as (x & y & _ & Hy & _); [lia | reflexivity..|].
    congruence.
  - destruct scores as [|a t]; [discriminate|].
    destruct (H 0%nat (S k) a s) as (x & y & Hx & _ & _); [lia | reflexivity | exact Hk |].
    congruence.
Qed.

Lemma with_value_sorted l :
  Forall numeric l -> non_increasing (map snd l) ->
  StronglySorted desc (map with_value l).
Proof.
  intros Hn H. apply nth_strongly_sorted. intros i j a b Hij Ha Hb.
  rewrite nth_error_map in Ha, Hb.
  destruct (nth_error l i) as [ipa|] eqn:Ea; [|discriminate].
  destruct (nth_error l j) as [ipb|] eqn:Eb; [|discriminate].
  injection Ha as <-. injection Hb as <-.
  destruct (H i j (snd ipa) (snd ipb) Hij) as (x & y & Hx & Hy & Hle).
  - now rewrite nth_error_map, Ea.
  - now rewrite nth_error_map, Eb.
  - unfold desc, with_value, score_value. cbn [fst]. now rewrite Hx, Hy.
Qed.

Lemma with_value_filter v l :
  Forall numeric l ->
  filter (key_is v) (map with_value l) = map with_value (filter (same_score v) l).
Proof.
  induction 1 as [|ip t Hip _ IH]; [reflexivity|].
  cbn [map filter]. rewrite IH.
  assert (key_is v (with_value ip) = same_score v ip) as ->.
  { unfold key_is, with_value, same_score, score_value, numeric in *. cbn [fst].
    destruct (number (snd ip)); [reflexivity | contradiction]. }
  now destruct (same_score v ip).
Qed.

Lemma ranked_unique l1 l2 :
  Forall numeric l1 -> Forall numeric l2 ->
  non_increasing (map snd l1) -> non_increasing (map snd l2) ->
  (forall v, filter (same_score v) l1 = filter (same_score v) l2) ->
  l1 = l2.
Proof.
  intros N1 N2 S1 S2 F.
  assert (E : map with_value l1 = map with_value l2).
  { apply stable_arrangement_unique; auto using with_value_sorted.
    intros v. now rewrite !with_value_filter, F by assumption. }
  apply (f_equal (map snd)) in E. rewrite !map_map in E. cbn [with_value snd] in E.
  now rewrite !map_id in E.
Qed.

(** X12.  In every response the scores stay with their ids: the returned
    pairs are a rearrangement of the pairs (id of the k-th instance, first
    element of the k-th prediction), and the content type returned is the
    accept header of the context. *)
Theorem x12_scores_stay_with_their_ids
  data context w text ct w' d inst ids r ps heads :
  handler data context w = (Ok (text, ct), w') ->
  _process_input data context = Ok d ->
  instances_of d = Ok inst ->
  item_ids_loop inst [] = Ok ids ->
  server w (rest_uri context) d = Ok r ->
  predictions_of (content r) = Ok ps ->
  Forall2 (fun p h => getitem0 p = Ok h) (firstn (List.length ids) ps) heads ->
  ct = accept_header context
  /\ exists ranked,
       text = response_text ranked /\ Permutation ranked (combine ids heads).
Proof.
  intros H H1 H2 H3 H4 H5 Hh.
  pose proof (handler_ok_inv _ _ _ _ _ _ H)
    as (_ & _ & _ & _ & _ & _ & _ & _ & _ & _ & _ & _ & _ & _ & _ & _ & Hct & _).
  split; [exact Hct|].
  apply ranking in H
    as (d' & inst' & ids' & r' & ps' & heads' & ranked
        & E1 & E2 & E3 & E4 & E5 & Hh' & Ht & Hp & _ & _).
  rewrite H1 in E1. injection E1 as <-.
  rewrite H2 in E2. injection E2 as <-.
  rewrite H3 in E3. injection E3 as <-.
  rewrite H4 in E4. injection E4 as <-.
  rewrite H5 in E5. injection E5 as <-.
  rewrite (ok_functional _ _ _ _ Hh Hh'). eauto.
Qed.

Lemma x12_scores_stay_with_their_ids_witness :
  Some "application/json" = accept_header sample_context
  /\ exists ranked,
       sample_text = response_text ranked
       /\ Permutation ranked
            (combine [1; 0] [PFloat (float_of_decimal false 2 (-1));
                             PFloat (float_of_decimal false 9 (-1))]).
Proof.
  apply (x12_scores_stay_with_their_ids
           (list_byte_of_string sample_body) sample_context
           (answering 200 sample_reply) sample_text (Some "application/json")
           (after_post (answering 200 sample_reply) (rest_uri sample_context)
              sample_body)
           sample_body sample_instances [1; 0] sample_response sample_predictions);
    try (vm_compute; reflexivity).
  repeat constructor.
Defined.

(** X13.  The response is fixed by three properties: any rearrangement of
    the positional pairs that is non-increasing in score and keeps equal
    scores in input order is the list the handler returns. *)
Theorem x13_ranking_is_determined
  data context w text ct w' d inst ids r ps heads ranked' :
  handler data context w = (Ok (text, ct), w') ->
  _process_input data context = Ok d ->
  instances_of d = Ok inst ->
  item_ids_loop inst [] = Ok ids ->
  server w (rest_uri context) d = Ok r ->
  predictions_of (content r) = Ok ps ->
  Forall2 (fun p h => getitem0 p = Ok h) (firstn (List.length ids) ps) heads ->
  Permutation ranked' (combine ids heads) ->
  non_increasing (map snd ranked') ->
  (forall v, filter (same_score v) ranked'
             = filter (same_score v) (combine ids heads)) ->
  text = response_text ranked'.
Proof.
  intros H H1 H2 H3 H4 H5 Hh Hp' Hn' Hs'.
  apply ranking in H
    as (d' & inst' & ids' & r' & ps' & heads' & ranked
        & E1 & E2 & E3 & E4 & E5 & Hh' & -> & Hp & Hn & Hs).
  rewrite H1 in E1. injection E1 as <-.
  rewrite H2 in E2. injection E2 as <-.
  rewrite H3 in E3. injection E3 as <-.
  rewrite H4 in E4. injection E4 as <-.
  rewrite H5 in E5. injection E5 as <-.
  rewrite <- (ok_functional _ _ _ _ Hh Hh') in *. clear Hh'.
  f_equal. set (pairs := combine ids heads) in *.
  destruct pairs as [|a [|b t]] eqn:Ep.
  - apply Permutation_sym, Permutation_nil in Hp.
    apply Permutation_sym, Permutation_nil in Hp'. congruence.
  - apply Permutation_sym, Permutation_length_1_inv in Hp.
    apply Permutation_sym, Permutation_length_1_inv in Hp'. congruence.
  - assert (N : Forall numeric ranked).
    { apply Forall_forall. intros ip Hip.
      assert (L : (2 <= List.length (map snd ranked))%nat)
        by (rewrite length_map, (Permutation_length Hp); cbn; lia).
      pose proof (non_increasing_numbers _ L Hn) as F.
      rewrite Forall_forall in F. apply F, in_map, Hip. }
    assert (N' : Forall numeric ranked').
    { rewrite Forall_forall in *. intros ip Hip. apply N.
      eapply Permutation_in; [|exact Hip].
      etransitivity; [exact Hp' | symmetry; exact Hp]. }
    apply ranked_unique; auto. intros v. now rewrite Hs, Hs'.
Qed.

Lemma x13_ranking_is_determined_witness :
  ordered_text = response_text [(0, PInt 9); (1, PInt 2)].
Proof.
  apply (x13_ranking_is_determined
           (list_byte_of_string ordered_body) sample_context
           (answering 200 ordered_reply)
           ordered_text (Some "application/json")
           (after_post (answering 200 ordered_reply) (rest_uri sample_context)
              ordered_body)
           ordered_body ordered_instances [0; 1]
           {| status_code := 200; content := list_byte_of_string ordered_reply |}
           [PList [PInt 9]; PList [PInt 2]] [PInt 9; PInt 2]).
  1-6: vm_compute; reflexivity.
  - repeat constructor.
  - apply Permutation_refl.
  - intros i j a b Hij Ha Hb.
    destruct i as [|[|[|i]]], j as [|[|[|j]]]; try lia; cbn in Ha, Hb;
      try discriminate.
    injection Ha as <-. injection Hb as <-.
    exists (XFin (inject_Z 2)), (XFin (inject_Z 9)).
    repeat split; vm_compute; reflexivity.
  - intros v. reflexivity.
Defined.

(** X14.  Only the first element of each prediction that has an instance is
    used: two replies of status 200 that agree on those first elements give
    the same response, whatever else the entries hold and whatever
    predictions follow. *)
Theorem x14_only_first_elements_matter
  data context w text ct w' d inst ids r ps heads w2 r2 ps2 :
  handler data context w = (Ok (text, ct), w') ->
  _process_input data context = Ok d ->
  instances_of d = Ok inst ->
  item_ids_loop inst [] = Ok ids ->
  server w (rest_uri context) d = Ok r ->
  predictions_of (content r) = Ok ps ->
  Forall2 (fun p h => getitem0 p = Ok h) (firstn (List.length ids) ps) heads ->
  server w2 (rest_uri context) d = Ok r2 ->
  status_code r2 = 200 ->
  predictions_of (content r2) = Ok ps2 ->
  Forall2 (fun p h => getitem0 p = Ok h) (firstn (List.length ids) ps2) heads ->
  handler data context w2 = (Ok (text, ct), after_post w2 (rest_uri context) d).
Proof.
  intros H H1 H2 H3 H4 H5 Hh G4 Gs G5 Gh.
  apply handler_ok_inv in H
    as (d' & inst' & ids' & r' & ps' & es & out
        & E1 & E2 & E3 & E4 & _ & E5 & E6 & E7 & -> & -> & _).
  rewrite H1 in E1. injection E1 as <-.
  rewrite H2 in E2. injection E2 as <-.
  rewrite H3 in E3. injection E3 as <-.
  rewrite H4 in E4. injection E4 as <-.
  rewrite H5 in E5. injection E5 as <-.
  apply (handler_run data context w2 d inst ids r2 ps2 es out); auto.
  apply pairing_ok in E6 as (heads' & Hh' & ->).
  rewrite <- (ok_functional _ _ _ _ Hh Hh').
  apply pairing_ok. eauto.
Qed.

Lemma x14_only_first_elements_matter_witness :
  handler (list_byte_of_string sample_body) sample_context
    (answering 200 reply_with_tails)
  = (Ok (sample_text, Some "application/json"),
     after_post (answering 200 reply_with_tails) (rest_uri sample_context)
       sample_body).
Proof.
  apply (x14_only_first_elements_matter
           (list_byte_of_string sample_body) sample_context
           (answering 200 sample_reply) sample_text (Some "application/json")
           (after_post (answering 200 sample_reply) (rest_uri sample_context)
              sample_body)
           sample_body sample_instances [1; 0] sample_response sample_predictions
           [PFloat (float_of_decimal false 2 (-1));
            PFloat (float_of_decimal false 9 (-1))]
           (answering 200 reply_with_tails)
           {| status_code := 200; content := list_byte_of_string reply_with_tails |}
           [PList [PFloat (float_of_decimal false 2 (-1)); PInt 7; PStr "x"];
            PList [PFloat (float_of_decimal false 9 (-1)); PNone];
            PList []]);
    try (vm_compute; reflexivity); repeat constructor.
Defined.

(** X15.  Every item id the loop extracts is a valid index into the one-hot
    list of its instance: at least 0 and less than the length of the
    list. *)
Theorem x15_item_ids_are_valid_indices inst ids :
  item_ids_loop inst [] = Ok ids ->
  Forall2 (fun x i => exists v,
             getitem x "input_2" = Ok (PList v)
             /\ 0 <= i < Z.of_nat (List.length v)) inst ids.
Proof.
  intros H. apply loop_ok in H. eapply Forall2_impl; [|exact H].
  intros x i Hx. apply item_id_is_first_one in Hx as (v & Hv & H0 & (y & Hy & _) & _).
  exists v. split; [assumption|]. split; [assumption|].
  assert (Z.to_nat i < List.length v)%nat
    by (apply nth_error_Some; congruence).
  lia.
Qed.

Lemma x15_item_ids_are_valid_indices_witness :
  Forall2 (fun x i => exists v,
             getitem x "input_2" = Ok (PList v)
             /\ 0 <= i < Z.of_nat (List.length v)) sample_instances [1; 0].
Proof.
  apply (x15_item_ids_are_valid_indices sample_instances [1; 0]).
  vm_compute. reflexivity.
Defined.

(** X16.  For a request with a single instance no scores are compared:
    the first element of the first prediction is returned with the item
    id, whatever object it is. *)
Theorem x16_single_entry_any_score data context w d inst i r p rest s :
  _process_input data context = Ok d ->
  instances_of d = Ok inst ->
  item_ids_loop inst [] = Ok [i] ->
  server w (rest_uri context) d = Ok r ->
  status_code r = 200 ->
  predictions_of (content r) = Ok (p :: rest) ->
  getitem0 p = Ok s ->
  handler data context w
  = (Ok (response_text [(i, s)], accept_header context),
     after_post w (rest_uri context) d).
Proof.
  intros H1 H2 H3 H4 Hs H5 Hp.
  apply (handler_run data context w d inst [i] r (p :: rest)
           [entry (i, s)] [entry (i, s)]); auto.
  cbn [combine mapM]. unfold item_prediction_score. rewrite Hp. reflexivity.
Qed.

Lemma x16_single_entry_any_score_witness :
  handler (list_byte_of_string single_body) sample_context
    (answering 200 reply_with_text_score)
  = (Ok (response_text [(1, PStr "n/a")], Some "application/json"),
     after_post (answering 200 reply_with_text_score) (rest_uri sample_context)
       single_body).
Proof.
  apply (x16_single_entry_any_score
           (list_byte_of_string single_body) sample_context
           (answering 200 reply_with_text_score) single_body
           [PDict [("input_2", PList [PInt 0; PInt 1; PInt 0])]] 1
           {| status_code := 200;
              content := list_byte_of_string reply_with_text_score |}
           (PList [PStr "n/a"]) [] (PStr "n/a"));
    vm_compute; reflexivity.
Defined.

(** X17.  The key [order_item_predictions] reads from an entry built by
    the handler is the first element of the prediction the entry was built
    from, and the entry's [item_id] is the id it was built with. *)
Theorem x17_sort_key_is_first_element i p e :
  item_prediction_score (i, p) = Ok e ->
  order_item_predictions e = getitem0 p
  /\ getitem e "item_id" = Ok (PInt i).
Proof.
  unfold item_prediction_score. intros H.
  apply bind_ok in H as (s & Hs & H). injection H as <-.
  rewrite Hs. split; reflexivity.
Qed.

Lemma x17_sort_key_is_first_element_witness :
  order_item_predictions
    (PDict [("item_id", PInt 3); ("prediction", PInt 8)])
  = getitem0 (PList [PInt 8; PInt 4])
  /\ getitem (PDict [("item_id", PInt 3); ("prediction", PInt 8)]) "item_id"
     = Ok (PInt 3).
Proof.
  apply (x17_sort_key_is_first_element 3 (PList [PInt 8; PInt 4])).
  reflexivity.
Defined.

(** X18.  For a status other than 200 the handler never returns a
    response: it raises, after the POST, either UnicodeDecodeError or the
    error that carries the body of the reply as text. *)
Theorem x18_no_response_for_error_status data context w d inst ids r :
  _process_input data context = Ok d ->
  instances_of d = Ok inst ->
  item_ids_loop inst [] = Ok ids ->
  server w (rest_uri context) d = Ok r ->
  status_code r <> 200 ->
  exists e,
    handler data context w = (Raise e, after_post w (rest_uri context) d)
    /\ (e = UnicodeDecodeError
        \/ e = ValueError (string_of_list_byte (content r))).
Proof.
  intros H1 H2 H3 H4 Hs. stages H1 H2 H3. rewrite H4.
  unfold _process_output.
  destruct (Z.eqb_spec (status_code r) 200); [contradiction|].
  cbn [negb]. unfold decode. destruct (utf8_ok _); cbn [bind]; eauto.
Qed.

Lemma x18_no_response_for_error_status_witness :
  exists e,
    handler (list_byte_of_string sample_body) sample_context
      (answering 404 sample_reply)
    = (Raise e,
       after_post (answering 404 sample_reply) (rest_uri sample_context)
         sample_body)
    /\ (e = UnicodeDecodeError
        \/ e = ValueError
                 (string_of_list_byte
                    (content {| status_code := 404;
                                content := list_byte_of_string sample_reply |}))).
Proof.
  apply (x18_no_response_for_error_status
           (list_byte_of_string sample_body) sample_context
           (answering 404 sample_reply) sample_body sample_instances [1; 0]
           {| status_code := 404; content := list_byte_of_string sample_reply |});
    try (vm_compute; reflexivity).
  vm_compute. discriminate.
Defined.
